(** * code-diagram-creator: the LLM and Mermaid services

    A shallow embedding of [app/services/llm_service.py] and
    [app/services/mermaid_service.py], and the properties of the two
    request handlers: the completion dispatcher [complete_text] with its two
    vendor paths, the prompt flattening [format_anthropic_prompt], the
    configuration lookup [get_llm_by_id] and the diagram renderer
    [create_mermaid_diagram].

    Python values are modelled as follows.
    - [str] is a [string] holding the UTF-8 encoding of the text, so that
      [str.encode()] is the identity and [bytes.decode()] is a validity
      check; [bytes] is a [string] of arbitrary bytes.  (A [str] with a lone
      surrogate has no UTF-8 encoding and is outside the model.)
    - [dict[str, str]] is a [gmap string string]; a dict whose iteration
      order matters is an association list.
    - a call either returns a value or raises: [outcome]; code that also
      changes the world threads a state: [M]. *)

From Stdlib Require Import ZArith NArith Ascii String List.
From stdpp Require Import base option list gmap strings.

Open Scope string_scope.
Open Scope list_scope.
Open Scope stdpp_scope.

(** ** The Python runtime: exceptions, outcomes, state *)

Module Py.

(** The exception classes the two services name or can meet. *)
Inductive exn_class : Type :=
  | BaseException
  | Exception
  | KeyboardInterrupt
  | LookupError
  | KeyError
  | ValueError
  | UnicodeError
  | UnicodeDecodeError
  | OSError
  | FileNotFoundError
  | FileExistsError
  | SubprocessError
  | OpenAIError              (* openai.OpenAIError *)
  | LLMException             (* llm_service.py *)
  | OpenAIException          (* llm_service.py *)
  | AnthropicException       (* llm_service.py *)
  | MermaidCliError          (* mermaid_service.py *)
  | MermaidUnexpectedError   (* mermaid_service.py *)
  | OtherException (name : string). (* any other direct subclass of Exception *)

#[global] Instance exn_class_eq_dec : EqDecision exn_class.
Proof. solve_decision. Defined.

(** The proper ancestors of a class, nearest first. *)
Definition bases (c : exn_class) : list exn_class :=
  match c with
  | BaseException => []
  | Exception | KeyboardInterrupt => [BaseException]
  | KeyError => [LookupError; Exception; BaseException]
  | UnicodeError => [ValueError; Exception; BaseException]
  | UnicodeDecodeError => [UnicodeError; ValueError; Exception; BaseException]
  | FileNotFoundError | FileExistsError =>
      [OSError; Exception; BaseException]
  | LookupError | ValueError | OSError | SubprocessError | OpenAIError
  | LLMException | OpenAIException | AnthropicException
  | MermaidCliError | MermaidUnexpectedError | OtherException _ =>
      [Exception; BaseException]
  end.

Definition issubclass (c d : exn_class) : bool :=
  bool_decide (c = d) || bool_decide (d ∈ bases c).

(** An exception object.  [Exn] carries the class, [str(e)] and the
    [__cause__] set by [raise ... from].  [subprocess.CalledProcessError]
    is the one exception whose attributes the code reads, so it has a
    constructor of its own. *)
#[warnings="-register-all"]
Inductive exn : Type :=
  | Exn (cls : exn_class) (message : string) (cause : option exn)
  | CalledProcessError (returncode : Z) (cmd : list string)
                       (output stderr : string).

(** [except c as err: ... {err} ...], for a class [c] that is no ancestor
    of CalledProcessError: [str(err)] when [e] is an instance of [c]. *)
Definition caught_as (c : exn_class) (e : exn) : option string :=
  match e with
  | Exn cls m _ => if issubclass cls c then Some m else None
  | CalledProcessError _ _ _ _ => None
  end.

Inductive outcome (A : Type) : Type :=
  | Returned (a : A)
  | Raised (e : exn).
Arguments Returned {A} a.
Arguments Raised {A} e.

Definition is_returned {A} (o : outcome A) : bool :=
  match o with Returned _ => true | Raised _ => false end.

#[global] Instance outcome_ret : MRet outcome := λ A a, Returned a.
#[global] Instance outcome_bind : MBind outcome := λ A B f o,
  match o with
  | Returned a => f a
  | Raised e => Raised e
  end.

(** A computation over a world of type [S] that tells what it does to the
    outside as events of type [E]; the world and the events survive a
    raise. *)
Definition M (S E A : Type) : Type := S → outcome A * S * list E.

#[global] Instance M_ret {S E} : MRet (M S E) := λ A a σ, (Returned a, σ, []).
#[global] Instance M_bind {S E} : MBind (M S E) := λ A B f m σ,
  match m σ with
  | (Returned a, σ1, evs1) =>
      let '(r, σ2, evs2) := f a σ1 in (r, σ2, evs1 ++ evs2)
  | (Raised e, σ1, evs1) => (Raised e, σ1, evs1)
  end.

Definition raise {S E A} (e : exn) : M S E A := λ σ, (Raised e, σ, []).
Definition lift {S E A} (o : outcome A) : M S E A := λ σ, (o, σ, []).
Definition emit {S E} (ev : E) : M S E unit := λ σ, (Returned tt, σ, [ev]).

(** [try: m except ...: h]: the handler sees every exception of the body
    and re-raises the ones no clause matches. *)
Definition try_except {S E A} (m : M S E A) (h : exn → M S E A) : M S E A :=
  λ σ,
  match m σ with
  | (Returned a, σ1, evs1) => (Returned a, σ1, evs1)
  | (Raised e, σ1, evs1) =>
      let '(r, σ2, evs2) := h e σ1 in (r, σ2, evs1 ++ evs2)
  end.

(** [repr] of a key that holds no quote and no escape, as the three keys
    the services look up do. *)
Definition repr (key : string) : string := "'" +:+ key +:+ "'".

(** [d[key]] *)
Definition getitem (d : gmap string string) (key : string) : outcome string :=
  match d !! key with
  | Some v => Returned v
  | None => Raised (Exn KeyError (repr key) None)
  end.

(** *** UTF-8, the codec of [bytes.decode()] *)

Definition between (lo hi b : N) : bool := ((lo <=? b) && (b <=? hi))%N.
Definition continuation (b : N) : bool := between 128 191 b.

(** Well-formed UTF-8 (RFC 3629): no overlong form, no surrogate, nothing
    above U+10FFFF; what the strict decoder accepts. *)
Fixpoint utf8_wf (bs : list N) : bool :=
  match bs with
  | [] => true
  | b0 :: rest =>
      if (b0 <=? 127)%N then utf8_wf rest
      else if between 194 223 b0 then
        match rest with
        | b1 :: rest1 => continuation b1 && utf8_wf rest1
        | _ => false
        end
      else if between 224 239 b0 then
        match rest with
        | b1 :: b2 :: rest2 =>
            (if (b0 =? 224)%N then between 160 191 b1
             else if (b0 =? 237)%N then between 128 159 b1
             else continuation b1)
            && continuation b2 && utf8_wf rest2
        | _ => false
        end
      else if between 240 244 b0 then
        match rest with
        | b1 :: b2 :: b3 :: rest3 =>
            (if (b0 =? 240)%N then between 144 191 b1
             else if (b0 =? 244)%N then between 128 143 b1
             else continuation b1)
            && continuation b2 && continuation b3 && utf8_wf rest3
        | _ => false
        end
      else false
  end.

Definition byte_values (b : string) : list N :=
  map N_of_ascii (list_ascii_of_string b).

(** [b.decode()]: the text, or UnicodeDecodeError.  The model keeps the
    class of the error and the codec name, not CPython's position report. *)
Definition decode (b : string) : outcome string :=
  if utf8_wf (byte_values b) then Returned b
  else Raised (Exn UnicodeDecodeError "'utf-8' codec can't decode bytes" None).

(** [s.encode()] *)
Definition encode (s : string) : string := s.

End Py.
Import Py.

(** ** llm_service.py *)

Module LLMService.

(** Modelled from the spec: the two configuration records of [..models],
    a module that is not among the sources.  An LLMDefinition is an
    "identifier, display name, vendor, token limits"; an LLMConfig is "a
    mapping from vendor name to an ordered list of model definitions, plus an
    ordered list of vendor display names".  The mapping is a Python dict,
    iterated in insertion order: an association list. *)
Record LLMDefinition : Type := {
  id : string;
  name : string;
  vendor : string;
  token_limits : Z * Z;
}.

Record LLMConfig : Type := {
  llm_vendors : list (string * list LLMDefinition);
  llm_vendor_names : list string;
}.

(** The inner loop of [get_llm_by_id]: [for llm in llms: if llm.id == llm_id:
    return llm]; [None] when the loop falls through. *)
Fixpoint scan_llms (llms : list LLMDefinition) (llm_id : string)
  : option LLMDefinition :=
  match llms with
  | [] => None
  | llm :: rest =>
      if bool_decide (id llm = llm_id) then Some llm else scan_llms rest llm_id
  end.

(** The outer loop: [for _, llms in llm_config.llm_vendors.items()]. *)
Fixpoint scan_vendors (items : list (string * list LLMDefinition))
    (llm_id : string) : option LLMDefinition :=
  match items with
  | [] => None
  | (_, llms) :: rest =>
      match scan_llms llms llm_id with
      | Some llm => Some llm
      | None => scan_vendors rest llm_id
      end
  end.

Definition get_llm_by_id (llm_config : LLMConfig) (llm_id : string)
  : option LLMDefinition :=
  scan_vendors (llm_vendors llm_config) llm_id.

(** What the OpenAI client hands back: an [OpenAIObject] or something else
    (the [isinstance] test of the source), with its content. *)
Record response : Type := {
  is_OpenAIObject : bool;
  body : string;
}.

(** Everything [llm_service.py] imports and calls but does not define. *)
Record World : Type := {
  (** [..config.ANTHROPIC_AI_VENDOR] *)
  ANTHROPIC_AI_VENDOR : string;
  (** [anthropic.HUMAN_PROMPT], [anthropic.AI_PROMPT] *)
  HUMAN_PROMPT : string;
  AI_PROMPT : string;
  (** [..utils.llm_utils.validate_max_tokens]: returns, or raises to reject *)
  validate_max_tokens : Z → outcome unit;
  (** [limiter.ratelimit(identity)] on a bucket holding so many items *)
  limiter_ratelimit : N → string → outcome unit * N;
  (** [openai.ChatCompletion.create(model, max_tokens, messages, functions,
      function_call)] *)
  ChatCompletion_create :
    string → Z → list (gmap string string) → option (list string) → string →
    outcome response;
  (** [os.environ] *)
  environ : gmap string string;
  (** [Anthropic(api_key).completions.create(prompt, stop_sequences, model,
      max_tokens_to_sample).completion] *)
  completions_create :
    string → string → list string → string → Z → outcome string;
  (** [str.strip] *)
  strip : string → string;
}.

(** What a call does to the outside, in order. *)
Inductive event : Type :=
  | Validate (max_tokens : Z)
  | RateLimit (identity : string)
  | Enter_complete_openai_text
  | Enter_complete_anthropic_text
  | OpenAI_request (model : string) (max_tokens : Z)
                   (messages : list (gmap string string))
                   (functions : option (list string)) (function_call : string)
  | Anthropic_request (prompt : string) (stop_sequences : list string)
                      (model : string) (max_tokens_to_sample : Z)
  | Callback (r : response).

#[global] Instance response_eq_dec : EqDecision response.
Proof. solve_decision. Defined.
#[global] Instance event_eq_dec : EqDecision event.
Proof. solve_decision. Defined.

(** The state a call can change: the items in the shared limiter's bucket. *)
Definition state : Type := N.

Definition log (ev : event) : M state event unit := emit ev.

Definition ratelimit (w : World) (identity : string) : M state event unit :=
  λ bucket,
  let '(r, bucket') := limiter_ratelimit w bucket identity in
  (r, bucket', [RateLimit identity]).

Section Service.
Context (w : World).

Definition format_anthropic_prompt_step (prompt : string)
    (message : gmap string string) : outcome string :=
  role ← getitem message "role";
  if bool_decide (role = "user") then
    content ← getitem message "content";
    mret (prompt +:+ HUMAN_PROMPT w +:+ " " +:+ content)
  else
    role' ← getitem message "role";
    if bool_decide (role' = "assistant") then
      content ← getitem message "content";
      mret (prompt +:+ AI_PROMPT w +:+ " " +:+ content)
    else mret prompt.

(** The [for message in messages] loop, from the prompt built so far. *)
Fixpoint format_anthropic_prompt_loop (prompt : string)
    (messages : list (gmap string string)) : outcome string :=
  match messages with
  | [] => mret prompt
  | message :: rest =>
      prompt' ← format_anthropic_prompt_step prompt message;
      format_anthropic_prompt_loop prompt' rest
  end.

Definition format_anthropic_prompt (messages : list (gmap string string))
  : outcome string :=
  format_anthropic_prompt_loop "" messages.

Definition complete_anthropic_text (max_tokens : Z) (model : string)
    (messages : list (gmap string string)) : M state event string :=
  _ ← log Enter_complete_anthropic_text;
  try_except
    (api_key ← lift (getitem (environ w) "ANTHROPIC_API_KEY");
     prompt ← lift (format_anthropic_prompt messages);
     _ ← log (Anthropic_request prompt [HUMAN_PROMPT w] model max_tokens);
     completion ← lift (completions_create w api_key prompt [HUMAN_PROMPT w]
                          model max_tokens);
     mret (strip w completion))
    (λ err,
       match caught_as AnthropicException err with
       | Some s => mret ("Anthropic Client Error: " +:+ s)
       | None => raise err
       end).

Definition complete_openai_text (max_tokens : Z) (model : string)
    (messages : list (gmap string string)) (functions : option (list string))
    (callback : option (response → outcome string)) : M state event string :=
  _ ← log Enter_complete_openai_text;
  try_except
    (_ ← log (OpenAI_request model max_tokens messages functions "auto");
     response ← lift (ChatCompletion_create w model max_tokens messages
                        functions "auto");
     if negb (is_OpenAIObject response) then
       raise (Exn ValueError "Invalid Response" None)
     else
       match callback with
       | Some cb => _ ← log (Callback response); lift (cb response)
       | None =>
           mret "Response doesn't have choices or choices have no text."
       end)
    (λ err,
       match caught_as OpenAIError err with
       | Some s => mret ("OpenAI Client Error: " +:+ s)
       | None =>
       match caught_as ValueError err with
       | Some s => mret ("OpenAI Client Value error: " +:+ s)
       | None =>
       match caught_as OpenAIException err with
       | Some s => mret ("complete_openai_text Exception: " +:+ s)
       | None => raise err
       end end end).

Definition complete_text (max_tokens : Z) (model vendor : string)
    (messages : list (gmap string string)) (functions : option (list string))
    (callback : option (response → outcome string)) : M state event string :=
  _ ← log (Validate max_tokens);
  _ ← lift (validate_max_tokens w max_tokens);
  let is_anthropic := bool_decide (vendor = ANTHROPIC_AI_VENDOR w) in
  try_except
    (_ ← ratelimit w "complete_text";
     if is_anthropic then complete_anthropic_text max_tokens model messages
     else complete_openai_text max_tokens model messages functions callback)
    (λ exc,
       match caught_as LLMException exc with
       | Some s => mret ("Error completing text: " +:+ s)
       | None => raise exc
       end).

End Service.

End LLMService.

(** ** mermaid_service.py *)

Module MermaidService.

(** Modelled from the spec: [..models.MermaidScript], a module that is not
    among the sources: "a single text field holding a diagram-description
    document"; the source reads the field [mermaid_script]. *)
Record MermaidScript : Type := {
  mermaid_script : string;
}.

(** [fastapi.responses.FileResponse(path, media_type=...)]: the response
    keeps the path; the file is read when the response is sent. *)
Record FileResponse : Type := {
  path : string;
  media_type : string;
}.

(** [subprocess.CompletedProcess] *)
Record CompletedProcess : Type := {
  args : list string;
  returncode : Z;
  stdout : string;
  stderr : string;
}.

(** The object [NamedTemporaryFile] returns: its name and its [delete]
    flag. *)
Record tmpfile : Type := {
  name : string;
  delete_flag : bool;
}.

(** The world of the renderer: the file system, and the temporary files that
    are open, each with the bytes written to it and not yet flushed. *)
Record os_state : Type := {
  files : gmap string string;
  buffers : gmap string string;
}.

Inductive io_op : Type :=
  | Op_create (suffix : string)
  | Op_write (file data : string)
  | Op_close (file : string).

(** What the renderer does not decide. *)
Record Host : Type := {
  (** the names [tempfile] draws for a suffix (directory, prefix and random
      part), in the order it tries them *)
  candidate_names : string → list string;
  (** the operating system failing an operation (disc full, no temporary
      directory, ...) *)
  io_fault : io_op → gmap string string → option exn;
  (** the child process started with an argument vector on a file system:
      it cannot be started (missing binary, ...), or it runs to its end
      with an exit code and the bytes it wrote to its standard output and
      standard error; and the file system it leaves *)
  child : list string → gmap string string →
          outcome (Z * string * string) * gmap string string;
}.

Inductive event : Type :=
  | Created (file : string)
  | Wrote (file data : string)
  | Closed (file : string)
  | Unlinked (file : string)
  | Spawned (argv : list string) (files_then buffers_then : gmap string string)
            (result : outcome (Z * string * string))
            (files_after : gmap string string)
  | Printed (line : string)
  | Printed_exc.

Section Service.
Context (h : Host).

(** [NamedTemporaryFile(delete=..., suffix=...)]: the first candidate name
    that does not exist is created empty (O_EXCL) and opened. *)
Definition NamedTemporaryFile (delete : bool) (suffix : string)
  : M os_state event tmpfile := λ σ,
  match io_fault h (Op_create suffix) (files σ) with
  | Some e => (Raised e, σ, [])
  | None =>
      match find (λ n, bool_decide (files σ !! n = None))
                 ((λ stem, stem +:+ suffix) <$> candidate_names h suffix) with
      | None =>
          (Raised (Exn FileExistsError
                     "[Errno 17] No usable temporary file name found" None),
           σ, [])
      | Some n =>
          (Returned {| name := n; delete_flag := delete |},
           {| files := <[n := ""]> (files σ);
              buffers := <[n := ""]> (buffers σ) |},
           [Created n])
      end
  end.

(** [f.write(data)] *)
Definition write (f : tmpfile) (data : string) : M os_state event nat := λ σ,
  match buffers σ !! name f with
  | None => (Raised (Exn ValueError "write to closed file" None), σ, [])
  | Some buf =>
      match io_fault h (Op_write (name f) data) (files σ) with
      | Some e => (Raised e, σ, [])
      | None =>
          (Returned (String.length data),
           {| files := files σ;
              buffers := <[name f := buf +:+ data]> (buffers σ) |},
           [Wrote (name f) data])
      end
  end.

(** [f.close()]: flushes and closes; removes the file when the [delete]
    flag is set; does nothing on a closed file. *)
Definition close (f : tmpfile) : M os_state event unit := λ σ,
  match buffers σ !! name f with
  | None => (Returned tt, σ, [])
  | Some buf =>
      let fault := io_fault h (Op_close (name f)) (files σ) in
      let flushed :=
        match fault with
        | Some _ => files σ
        | None => alter (λ old, old +:+ buf) (name f) (files σ)
        end in
      let σ' :=
        {| files := if delete_flag f then delete (name f) flushed else flushed;
           buffers := delete (name f) (buffers σ) |} in
      let evs :=
        Closed (name f) :: (if delete_flag f then [Unlinked (name f)] else []) in
      match fault with
      | Some e => (Raised e, σ', evs)
      | None => (Returned tt, σ', evs)
      end
  end.

(** [f.__exit__] after a body: closes the file however the body ended, and
    lets the body's exception through. *)
Definition exit_after {A} (f : tmpfile) (body : M os_state event A)
  : M os_state event A := λ σ,
  let '(r, σ1, evs1) := body σ in
  match close f σ1 with
  | (Returned _, σ2, evs2) => (r, σ2, evs1 ++ evs2)
  | (Raised e, σ2, evs2) => (Raised e, σ2, evs1 ++ evs2)
  end.

(** [with ctx as f: body] *)
Definition with_ {A} (ctx : M os_state event tmpfile)
    (body : tmpfile → M os_state event A) : M os_state event A :=
  f ← ctx;
  exit_after f (body f).

(** [subprocess.run(argv, check=..., capture_output=True)] *)
Definition subprocess_run (argv : list string) (check : bool)
  : M os_state event CompletedProcess := λ σ,
  let '(result, files') := child h argv (files σ) in
  let σ' := {| files := files'; buffers := buffers σ |} in
  let evs := [Spawned argv (files σ) (buffers σ) result files'] in
  match result with
  | Raised e => (Raised e, σ', evs)
  | Returned (code, out, err) =>
      if check && negb (code =? 0)%Z then
        (Raised (CalledProcessError code argv out err), σ', evs)
      else
        (Returned {| args := argv; returncode := code;
                     stdout := out; stderr := err |}, σ', evs)
  end.

(** [print(a, b)] writes the two joined by a space. *)
Definition print (line : string) : M os_state event unit :=
  emit (Printed line).

(** [traceback.print_exc()] *)
Definition print_exc : M os_state event unit := emit Printed_exc.

(** The block under the [with] (lines 26 to 42). *)
Definition render (script : MermaidScript) (temp_in temp_out : tmpfile)
  : M os_state event FileResponse :=
  _ ← write temp_in (encode (mermaid_script script));
  _ ← close temp_in;
  _ ← close temp_out;
  process ← subprocess_run
              ["mmdc"; "-i"; name temp_in; "-o"; name temp_out] true;
  out ← lift (decode (stdout process));
  _ ← print ("Mermaid CLI Output: " +:+ out);
  err ← lift (decode (stderr process));
  _ ← print ("Mermaid CLI Errors: " +:+ err);
  mret {| path := name temp_out; media_type := "image/svg+xml" |}.

(** The two [except] clauses (lines 44 to 52). *)
Definition report (err : exn) : M os_state event FileResponse :=
  match err with
  | CalledProcessError _ _ _ stderr_bytes =>
      _ ← print "Exception Details:";
      text ← lift (decode stderr_bytes);
      _ ← print text;
      _ ← print_exc;
      text' ← lift (decode stderr_bytes);
      raise (Exn MermaidCliError ("Mermaid CLI failed: " +:+ text')
               (Some err))
  | Exn cls message _ =>
      if issubclass cls Exception then
        _ ← print "Unexpected Exception:";
        _ ← print_exc;
        raise (Exn MermaidUnexpectedError
                 ("Unexpected error occurred: " +:+ message) (Some err))
      else raise err
  end.

(** The coroutine's body; it awaits nothing. *)
Definition create_mermaid_diagram (script : MermaidScript)
  : M os_state event FileResponse :=
  try_except
    (with_ (NamedTemporaryFile false ".mmd") (λ temp_in,
     with_ (NamedTemporaryFile false ".svg") (λ temp_out,
       render script temp_in temp_out)))
    report.

(** The body of a response, read from the file system it is sent from. *)
Definition response_body (σ : os_state) (r : FileResponse) : option string :=
  files σ !! path r.

End Service.

End MermaidService.

(** ** Concrete worlds, for the examples *)

Module Examples.
Import LLMService MermaidService.

(** Modelled from the spec: [..utils.llm_utils.validate_max_tokens], which is
    not among the sources: "maxTokens must pass a validity check (fails with
    InvalidArgument if not ...)", for values "below the minimum/above the
    maximum accepted by the validator". *)
Definition validate_between (lo hi : Z) (max_tokens : Z) : outcome unit :=
  if ((max_tokens <? lo) || (hi <? max_tokens))%Z then
    Raised (Exn (OtherException "InvalidArgument") "max_tokens out of range"
              None)
  else Returned tt.

Definition newline : string := String "010"%char "".

Fixpoint lstrip (s : string) : string :=
  match s with
  | String c rest => if Ascii.is_space c then lstrip rest else s
  | EmptyString => EmptyString
  end.

(** [str.strip] on texts whose only white space is blank, tab, newline,
    vertical tab, form feed and carriage return. *)
Definition strip_blanks (s : string) : string :=
  String.rev (lstrip (String.rev (lstrip s))).

(** A world with the markers of the anthropic package, a validator that
    accepts 1 to 4096, a limiter that lets every call through, an OpenAI
    client that gives the stated answer, and the stated environment. *)
Definition world_with (answer : outcome response) (env : gmap string string)
  : World := {|
  ANTHROPIC_AI_VENDOR := "Anthropic";
  HUMAN_PROMPT := newline +:+ newline +:+ "Human:";
  AI_PROMPT := newline +:+ newline +:+ "Assistant:";
  validate_max_tokens := validate_between 1 4096;
  limiter_ratelimit := λ bucket _, (Returned tt, (bucket + 1)%N);
  ChatCompletion_create := λ _ _ _ _ _, answer;
  environ := env;
  completions_create := λ _ _ _ _ _, Returned " graph TD; A-->B ";
  strip := strip_blanks;
|}.

Definition world : World :=
  world_with (Returned {| is_OpenAIObject := true; body := "flowchart" |})
    {[ "ANTHROPIC_API_KEY" := "sk-ant-0" ]}.



(** The callback a caller passes to read the answer. *)
Definition body_of (r : response) : outcome string := Returned (body r).

Definition llm (i : string) (v : string) : LLMDefinition :=
  {| id := i; LLMService.name := i; vendor := v; token_limits := (1, 4096)%Z |}.

Definition config : LLMConfig := {|
  llm_vendors :=
    [("OpenAI", [llm "gpt-3.5-turbo" "OpenAI"; llm "gpt-4" "OpenAI"]);
     ("Anthropic", [llm "claude-2" "Anthropic"; llm "gpt-4" "Anthropic"])];
  llm_vendor_names := ["OpenAI"; "Anthropic"];
|}.

(** A host whose renderer ends with the given exit code and output, having
    written an image to the path after [-o] when the code is 0; with
    [broken], a host on which no temporary file can be created. *)
Definition host (broken : bool) (code : Z) (out err : string) : Host := {|
  candidate_names := λ _, ["/tmp/tmpk3x0"; "/tmp/tmpq81z"];
  io_fault := λ op _,
    match op with
    | Op_create _ =>
        if broken then
          Some (Exn OSError "[Errno 28] No space left on device" None)
        else None
    | _ => None
    end;
  child := λ argv fs,
    (Returned (code, out, err),
     match argv with
     | [_; _; _; _; o] => if (code =? 0)%Z then <[o := "<svg/>"]> fs else fs
     | _ => fs
     end);
|}.

Definition disc : os_state :=
  {| files := {["/tmp/tmpk3x0.mmd" := "graph LR"]}; buffers := ∅ |}.

(** A byte that no UTF-8 text holds. *)
Definition byte_ff : string := String "255"%char "".

End Examples.

(** ** Vocabulary of the statements *)

Module Statements.
Import LLMService MermaidService.

(** A message of the data model, role and content, as the dict the service
    receives. *)
Definition message (role content : string) : gmap string string :=
  {[ "role" := role; "content" := content ]}.

(** What one message adds to the prompt. *)
Definition contribution (w : World) (m : gmap string string) : string :=
  match m !! "role" with
  | Some role =>
      if bool_decide (role = "user") then
        HUMAN_PROMPT w +:+ " " +:+ default "" (m !! "content")
      else if bool_decide (role = "assistant") then
        AI_PROMPT w +:+ " " +:+ default "" (m !! "content")
      else ""
  | None => ""
  end.

Definition concat_all (parts : list string) : string :=
  foldr String.append "" parts.

(** The precondition of [format_anthropic_prompt]: a role, and a content
    when the role is one of the two the loop reads it for. *)
Definition well_keyed (m : gmap string string) : bool :=
  match m !! "role" with
  | None => false
  | Some role =>
      if bool_decide (role = "user") || bool_decide (role = "assistant")
      then bool_decide (is_Some (m !! "content"))
      else true
  end.

Definition all_llms (c : LLMConfig) : list LLMDefinition :=
  concat (snd <$> llm_vendors c).




(** An event that neither starts a child process nor removes a file. *)
Definition quiet (ev : MermaidService.event) : bool :=
  match ev with
  | Spawned _ _ _ _ _ | Unlinked _ => false
  | _ => true
  end.

(** What the block under the [with] yields once the child process has
    ended with [result]: lines 32 to 42 read as a function of the child. *)
Definition render_outcome (temp_out : string) (argv : list string)
    (result : outcome (Z * string * string)) : outcome FileResponse :=
  match result with
  | Raised e => Raised e
  | Returned (code, out, err) =>
      if negb (code =? 0)%Z then Raised (CalledProcessError code argv out err)
      else
        _ ← decode out;
        _ ← decode err;
        mret {| path := temp_out; media_type := "image/svg+xml" |}
  end.

(** A run that ended before it started a child: it raised, quietly. *)
Definition stopped_early {A} (x : outcome A * os_state * list MermaidService.event)
  : Prop :=
  is_returned x.1.1 = false ∧ Forall (λ ev, quiet ev = true) x.2.

(** A run that started the child process: once, after the events [pre],
    with the two paths as arguments, on a file system [fs] where the input
    file holds the whole encoded script and the output file is empty, both
    files closed; everything else the run did was quiet, and the run ends on
    the file system the child left. *)
Definition started_child (h : Host) (script : MermaidScript)
    (temp_in temp_out : string) (fs bufs : gmap string string)
    (pre : list MermaidService.event)
    (x : outcome FileResponse * os_state * list MermaidService.event) : Prop :=
  let argv := ["mmdc"; "-i"; temp_in; "-o"; temp_out] in
  (∃ post,
     x.2 = pre ++ Spawned argv fs bufs (child h argv fs).1 (child h argv fs).2
                  :: post
     ∧ Forall (λ ev, quiet ev = true) post)
  ∧ Forall (λ ev, quiet ev = true) pre
  ∧ fs !! temp_in = Some (encode (mermaid_script script))
  ∧ fs !! temp_out = Some ""
  ∧ bufs !! temp_in = None
  ∧ bufs !! temp_out = None
  ∧ x.1.2 = {| files := (child h argv fs).2; buffers := bufs |}.

(** The child processes of a run: the argument vector, how the child
    ended, and what it left at the path that follows [-o]. *)
Definition children (evs : list MermaidService.event)
  : list (list string * outcome (Z * string * string) * option string) :=
  omap (λ ev,
          match ev with
          | Spawned argv _ _ result files_after =>
              Some (argv, result, last argv ≫= λ o, files_after !! o)
          | _ => None
          end) evs.

End Statements.

(** ** Vocabulary of the further properties *)

Module Further.
Import LLMService MermaidService.

(** A configuration whose vendor mapping is that of [c] followed by
    [more], as a config file with further vendors appended loads. *)
Definition with_more_vendors (c : LLMConfig)
    (more : list (string * list LLMDefinition)) : LLMConfig :=
  {| llm_vendors := llm_vendors c ++ more;
     llm_vendor_names := llm_vendor_names c |}.

(** Bytes that are all below 128. *)
Definition is_ascii (b : string) : bool :=
  forallb (λ v, (v <=? 127)%N) (byte_values b).

(** The classes of the exceptions that [create_mermaid_diagram] lets out:
    its two own, the decoding error of the first handler, and what is no
    [Exception] at all (KeyboardInterrupt and the like). *)
Definition leaves_renderer (e : exn) : bool :=
  match e with
  | Exn cls _ _ =>
      bool_decide (cls = MermaidCliError)
      || bool_decide (cls = MermaidUnexpectedError)
      || bool_decide (cls = UnicodeDecodeError)
      || negb (issubclass cls Exception)
  | CalledProcessError _ _ _ _ => false
  end.

(** The world of the examples with an Anthropic client that raises. *)
Definition world_anthropic_raising (e : exn) : World := {|
  ANTHROPIC_AI_VENDOR := ANTHROPIC_AI_VENDOR Examples.world;
  HUMAN_PROMPT := HUMAN_PROMPT Examples.world;
  AI_PROMPT := AI_PROMPT Examples.world;
  validate_max_tokens := validate_max_tokens Examples.world;
  limiter_ratelimit := limiter_ratelimit Examples.world;
  ChatCompletion_create := ChatCompletion_create Examples.world;
  environ := environ Examples.world;
  completions_create := λ _ _ _ _ _, Raised e;
  strip := strip Examples.world;
|}.

(** The world of the examples with a limiter that raises. *)
Definition world_limiter_raising (e : exn) : World := {|
  ANTHROPIC_AI_VENDOR := ANTHROPIC_AI_VENDOR Examples.world;
  HUMAN_PROMPT := HUMAN_PROMPT Examples.world;
  AI_PROMPT := AI_PROMPT Examples.world;
  validate_max_tokens := validate_max_tokens Examples.world;
  limiter_ratelimit := λ bucket _, (Raised e, bucket);
  ChatCompletion_create := ChatCompletion_create Examples.world;
  environ := environ Examples.world;
  completions_create := completions_create Examples.world;
  strip := strip Examples.world;
|}.

(** A callback that decodes the body of the answer. *)
Definition decode_body (r : response) : outcome string := decode (body r).


(** The three [except] clauses of [complete_openai_text] (lines 115 to
    120). *)
Definition openai_handled (e : exn) : outcome string :=
  match caught_as OpenAIError e with
  | Some s => Returned ("OpenAI Client Error: " +:+ s)
  | None =>
  match caught_as ValueError e with
  | Some s => Returned ("OpenAI Client Value error: " +:+ s)
  | None =>
  match caught_as OpenAIException e with
  | Some s => Returned ("complete_openai_text Exception: " +:+ s)
  | None => Raised e
  end end end.

(** A computation keeps a property of the renderer's world: a state that
    has it is left as a state that has it, however the computation ends. *)
Definition preserves {A} (I : os_state → Prop) (m : M os_state event A)
  : Prop :=
  ∀ σ, I σ → I (m σ).1.2.

(** The file [p] holds [c] and is not one of the open temporary files. *)
Definition holds_file (p c : string) (σ : os_state) : Prop :=
  files σ !! p = Some c ∧ buffers σ !! p = None.

(** No temporary file is open but those of [D]. *)
Definition open_within (D : gset string) (σ : os_state) : Prop :=
  dom (buffers σ) ⊆ D.

(** A host on which the renderer is not installed. *)
Definition missing_binary : Host := {|
  candidate_names := candidate_names (Examples.host false 0 "" "");
  io_fault := λ _ _, None;
  child := λ _ fs,
    (Raised (Exn FileNotFoundError
               "[Errno 2] No such file or directory: 'mmdc'" None), fs);
|}.


(** "erreur détectée", in UTF-8: the é is the two bytes 195 169. *)
Definition accented : string :=
  "erreur d" +:+ String "195"%char (String "169"%char "tect")
  +:+ String "195"%char (String "169"%char "e").


(** A host on which the input file can be created and the output file
    cannot. *)
Definition no_room_for_output : Host := {|
  candidate_names := candidate_names (Examples.host false 0 "" "");
  io_fault := λ op _,
    match op with
    | Op_create suffix =>
        if bool_decide (suffix = ".svg") then
          Some (Exn OSError "[Errno 28] No space left on device" None)
        else None
    | _ => None
    end;
  child := child (Examples.host false 0 "" "");
|}.


(** A message of one of the two roles that the prompt has a marker for. *)
Definition speaks (m : gmap string string) : bool :=
  match m !! "role" with
  | Some role => bool_decide (role = "user") || bool_decide (role = "assistant")
  | None => false
  end.


End Further.

(** ** Properties of llm_service.py *)

Module LLMServiceProperties.
Import LLMService Statements Examples.

Lemma append_empty_l (s : string) : "" +:+ s = s.
Proof. reflexivity. Qed.

Lemma append_cons (c : ascii) (s t : string) :
  String c s +:+ t = String c (s +:+ t).
Proof. reflexivity. Qed.

Lemma append_empty_r (s : string) : s +:+ "" = s.
Proof.
  induction s as [|c s IH]; [done|]. by rewrite append_cons, IH.
Qed.

Lemma append_assoc (s t u : string) : (s +:+ t) +:+ u = s +:+ (t +:+ u).
Proof.
  induction s as [|c s IH]; [done|]. by rewrite !append_cons, IH.
Qed.

(** *** [format_anthropic_prompt] *)

Section Format.
Context (w : World).

(** One turn of the loop on a message that has the keys the turn reads. *)
Lemma format_step_well_keyed prompt m :
  well_keyed m = true →
  format_anthropic_prompt_step w prompt m
  = Returned (prompt +:+ contribution w m).
Proof.
  unfold well_keyed, format_anthropic_prompt_step, contribution, getitem.
  destruct (m !! "role") as [role|] eqn:Hrole; [|done]. simpl.
  destruct (bool_decide (role = "user")) eqn:Hu; simpl.
  - intros [content ->]%bool_decide_eq_true. done.
  - destruct (bool_decide (role = "assistant")) eqn:Ha; simpl.
    + intros [content ->]%bool_decide_eq_true. done.
    + intros _. by rewrite append_empty_r.
Qed.

(** One turn on a message that lacks one: the lookup raises. *)
Lemma format_step_ill_keyed prompt m :
  well_keyed m = false →
  ∃ key, (key = "role" ∨ key = "content") ∧
         format_anthropic_prompt_step w prompt m
         = Raised (Exn KeyError (repr key) None).
Proof.
  unfold well_keyed, format_anthropic_prompt_step, getitem.
  destruct (m !! "role") as [role|] eqn:Hrole; simpl.
  - destruct (bool_decide (role = "user")) eqn:Hu; simpl.
    + intros Hc%bool_decide_eq_false. exists "content". split; [by right|].
      destruct (m !! "content"); [|done]. by destruct Hc.
    + destruct (bool_decide (role = "assistant")) eqn:Ha; simpl; [|done].
      intros Hc%bool_decide_eq_false. exists "content". split; [by right|].
      destruct (m !! "content"); [|done]. by destruct Hc.
  - intros _. exists "role". by split; [left|].
Qed.

Lemma format_loop_well_keyed messages : ∀ prompt,
  Forall (λ m, well_keyed m = true) messages →
  format_anthropic_prompt_loop w prompt messages
  = Returned (prompt +:+ concat_all (contribution w <$> messages)).
Proof.
  induction messages as [|m rest IH]; intros prompt Hall; simpl.
  - by rewrite append_empty_r.
  - apply Forall_cons in Hall as [Hm Hrest].
    rewrite (format_step_well_keyed _ _ Hm). simpl.
    rewrite (IH _ Hrest). by rewrite append_assoc.
Qed.

Lemma format_loop_ill_keyed messages : ∀ prompt,
  Exists (λ m, well_keyed m = false) messages →
  ∃ key, (key = "role" ∨ key = "content") ∧
         format_anthropic_prompt_loop w prompt messages
         = Raised (Exn KeyError (repr key) None).
Proof.
  induction messages as [|m rest IH]; intros prompt Hex.
  - by apply Exists_nil in Hex.
  - simpl. destruct (well_keyed m) eqn:Hm.
    + rewrite (format_step_well_keyed _ _ Hm). simpl.
      apply IH. apply Exists_cons in Hex as [Hbad|Hex]; [congruence | done].
    + destruct (format_step_ill_keyed prompt m Hm) as (key & Hkey & ->).
      by exists key.
Qed.

Lemma well_keyed_message role content : well_keyed (message role content) = true.
Proof.
  unfold well_keyed, message. rewrite lookup_insert_eq.
  rewrite lookup_insert_ne by done. rewrite lookup_singleton_eq.
  destruct (_ || _); [|done]. apply bool_decide_eq_true. eauto.
Qed.

End Format.

(** C4.  On a list of role/content messages [format_anthropic_prompt] returns
    the concatenation, left to right, of what each message contributes: the
    human marker, a space and the content for role "user"; the assistant
    marker, a space and the content for role "assistant"; nothing for any
    other role.  On [user "hi"; assistant "hello"] this is the human marker,
    " hi", the assistant marker and " hello", with nothing between. *)
Theorem format_anthropic_prompt_concatenates (w : World) :
  (∀ conversation : list (string * string),
     format_anthropic_prompt w (uncurry message <$> conversation)
     = Returned (concat_all
         ((λ '(role, content),
            if bool_decide (role = "user") then
              HUMAN_PROMPT w +:+ " " +:+ content
            else if bool_decide (role = "assistant") then
              AI_PROMPT w +:+ " " +:+ content
            else "") <$> conversation)))
  ∧ format_anthropic_prompt w [message "user" "hi"; message "assistant" "hello"]
    = Returned (HUMAN_PROMPT w +:+ " hi" +:+ AI_PROMPT w +:+ " hello").
Proof.
  assert (Hgen : ∀ conversation : list (string * string),
     format_anthropic_prompt w (uncurry message <$> conversation)
     = Returned (concat_all
         ((λ '(role, content),
            if bool_decide (role = "user") then
              HUMAN_PROMPT w +:+ " " +:+ content
            else if bool_decide (role = "assistant") then
              AI_PROMPT w +:+ " " +:+ content
            else "") <$> conversation))).
  { intros conversation. unfold format_anthropic_prompt.
    rewrite format_loop_well_keyed.
    - rewrite append_empty_l, <- list_fmap_compose. do 2 f_equal.
      apply list_fmap_ext. intros _ [role content] _. simpl.
      unfold contribution, message. rewrite lookup_insert_eq.
      rewrite lookup_insert_ne by done. by rewrite lookup_singleton_eq.
    - apply Forall_fmap, Forall_forall. intros [role content] _.
      apply well_keyed_message. }
  split; [exact Hgen|].
  etrans; [apply (Hgen [("user", "hi"); ("assistant", "hello")])|].
  cbn [fmap list_fmap concat_all foldr]. rewrite !bool_decide_eq_true_2 by done.
  rewrite bool_decide_eq_false_2 by done.
  by rewrite append_empty_r, !append_assoc.
Qed.

(** C10.  [format_anthropic_prompt] returns a string when every message has
    a "role" key and, where the role is "user" or "assistant", a "content"
    key; on a list that holds a message without them it raises KeyError, for
    the key "role" or "content", and returns nothing. *)
Theorem format_anthropic_prompt_needs_keys (w : World)
    (messages : list (gmap string string)) :
  (Forall (λ m, well_keyed m = true) messages →
   ∃ prompt, format_anthropic_prompt w messages = Returned prompt)
  ∧ (Exists (λ m, well_keyed m = false) messages →
     ∃ key, (key = "role" ∨ key = "content") ∧
            format_anthropic_prompt w messages
            = Raised (Exn KeyError (repr key) None)).
Proof.
  split; intros H.
  - eexists. by apply format_loop_well_keyed.
  - by apply format_loop_ill_keyed.
Qed.

Lemma format_anthropic_prompt_needs_keys_witness :
  (∃ prompt,
     format_anthropic_prompt world
       [message "user" "hi"; {[ "role" := "system" ]}] = Returned prompt)
  ∧ (∃ key, (key = "role" ∨ key = "content") ∧
       format_anthropic_prompt world
         [message "user" "hi"; {[ "role" := "assistant" ]}]
       = Raised (Exn KeyError (repr key) None)).
Proof.
  split.
  - apply (proj1 (format_anthropic_prompt_needs_keys world _)).
    repeat constructor.
  - apply (proj2 (format_anthropic_prompt_needs_keys world _)).
    apply Exists_cons_tl, Exists_cons_hd. reflexivity.
Defined.

(** *** [get_llm_by_id] *)

Lemma scan_llms_find llms llm_id :
  scan_llms llms llm_id = find (λ llm, bool_decide (id llm = llm_id)) llms.
Proof.
  induction llms as [|llm rest IH]; simpl; [done|].
  by destruct (bool_decide (id llm = llm_id)).
Qed.

Lemma find_append {A} (f : A → bool) (l k : list A) :
  find f (l ++ k) = match find f l with Some x => Some x | None => find f k end.
Proof.
  induction l as [|x l IH]; simpl; [done|]. by destruct (f x).
Qed.

(** The two nested loops are one scan of the vendors' lists laid end to
    end. *)
Lemma get_llm_by_id_find config llm_id :
  get_llm_by_id config llm_id
  = find (λ llm, bool_decide (id llm = llm_id)) (all_llms config).
Proof.
  unfold get_llm_by_id, all_llms.
  induction (llm_vendors config) as [|[vendor_name llms] rest IH]; simpl;
    [done|].
  rewrite find_append, scan_llms_find, IH. done.
Qed.

(** C7.  When no model definition of any vendor has the id, [get_llm_by_id]
    returns None (the model has no raising path: the lookup is a total
    function); otherwise it returns the first definition with that id, the
    vendors taken in the order of the mapping and each list in order. *)
Theorem get_llm_by_id_first_match (llm_config : LLMConfig) (llm_id : string) :
  (Forall (λ llm, id llm ≠ llm_id) (all_llms llm_config) →
   get_llm_by_id llm_config llm_id = None)
  ∧ (∀ before llm after,
       all_llms llm_config = before ++ llm :: after →
       Forall (λ earlier, id earlier ≠ llm_id) before →
       id llm = llm_id →
       get_llm_by_id llm_config llm_id = Some llm).
Proof.
  rewrite get_llm_by_id_find. split.
  - induction 1 as [|llm rest Hne _ IH]; simpl; [done|].
    by rewrite bool_decide_eq_false_2.
  - intros before llm after -> Hbefore Hid. rewrite find_append.
    replace (find _ before) with (@None LLMDefinition).
    + simpl. by rewrite bool_decide_eq_true_2.
    + induction Hbefore as [|earlier rest Hne _ IH]; simpl; [done|].
      by rewrite bool_decide_eq_false_2.
Qed.

Lemma get_llm_by_id_first_match_witness :
  get_llm_by_id config "llama" = None
  ∧ get_llm_by_id config "gpt-4" = Some (llm "gpt-4" "OpenAI").
Proof.
  split.
  - apply (proj1 (get_llm_by_id_first_match config "llama")).
    repeat constructor; simpl; discriminate.
  - apply (proj2 (get_llm_by_id_first_match config "gpt-4")
             [llm "gpt-3.5-turbo" "OpenAI"] (llm "gpt-4" "OpenAI")
             [llm "claude-2" "Anthropic"; llm "gpt-4" "Anthropic"]).
    + reflexivity.
    + repeat constructor; simpl; discriminate.
    + reflexivity.
Defined.


(** *** [complete_text] and the two vendor paths *)

Ltac run :=
  unfold complete_text, complete_openai_text, complete_anthropic_text,
    ratelimit, log, emit, lift, raise, try_except;
  unfold mbind, M_bind, mret, M_ret.

Section Dispatcher.
Context (w : World).
Implicit Types (max_tokens : Z) (model vendor : string)
  (messages : list (gmap string string)) (functions : option (list string))
  (callback : option (response → outcome string)) (bucket : state).

Lemma complete_text_rejected max_tokens model vendor messages functions
    callback bucket e :
  validate_max_tokens w max_tokens = Raised e →
  complete_text w max_tokens model vendor messages functions callback bucket
  = (Raised e, bucket, [Validate max_tokens]).
Proof. intros H. run. by rewrite H. Qed.



(** Once the validator and the limiter have let a call through, what is
    left is the vendor path and the outer handler. *)
Lemma complete_text_passed max_tokens model vendor messages functions
    callback bucket bucket' :
  validate_max_tokens w max_tokens = Returned tt →
  limiter_ratelimit w bucket "complete_text" = (Returned tt, bucket') →
  complete_text w max_tokens model vendor messages functions callback bucket
  = let '(r, σ, evs) :=
      (if bool_decide (vendor = ANTHROPIC_AI_VENDOR w)
       then complete_anthropic_text w max_tokens model messages
       else complete_openai_text w max_tokens model messages functions
              callback) bucket' in
    let prefix := [Validate max_tokens; RateLimit "complete_text"] in
    match r with
    | Returned text => (Returned text, σ, prefix ++ evs)
    | Raised exc =>
        match caught_as LLMException exc with
        | Some s => (Returned ("Error completing text: " +:+ s), σ,
                     prefix ++ evs)
        | None => (Raised exc, σ, prefix ++ evs)
        end
    end.
Proof.
  intros Hv Hl. unfold complete_text, ratelimit, log, emit, lift, raise,
    try_except. unfold mbind, M_bind, mret, M_ret. rewrite Hv, Hl.
  destruct (bool_decide _);
    [destruct (complete_anthropic_text _ _ _ _ _) as [[[text|exc] σ] evs]
    |destruct (complete_openai_text _ _ _ _ _ _ _) as [[[text|exc] σ] evs]];
    simpl; rewrite ?app_nil_r; try done;
    destruct (caught_as LLMException exc); simpl; by rewrite app_nil_r.
Qed.

End Dispatcher.

(** C2.  A max_tokens that the validator rejects makes [complete_text] raise
    the validator's error at once: the limiter's bucket is as it was, and
    the call to the validator is the only thing that happened; no limiter
    call, no vendor path, no request. *)
Theorem complete_text_rejects_before_anything (w : World) (max_tokens : Z)
    (model vendor : string) (messages : list (gmap string string))
    (functions : option (list string))
    (callback : option (response → outcome string)) (bucket : state)
    (invalid_argument : exn) :
  validate_max_tokens w max_tokens = Raised invalid_argument →
  complete_text w max_tokens model vendor messages functions callback bucket
  = (Raised invalid_argument, bucket, [Validate max_tokens]).
Proof.
  intros Hrejected.
  unfold complete_text, log, emit, lift. unfold mbind, M_bind.
  rewrite Hrejected. reflexivity.
Qed.

Lemma complete_text_rejects_before_anything_witness :
  complete_text world 5000 "gpt-4" "OpenAI" [message "user" "hi"] None
    (Some body_of) 7%N
  = (Raised (Exn (OtherException "InvalidArgument") "max_tokens out of range"
               None),
     7%N, [Validate 5000]).
Proof.
  apply (complete_text_rejects_before_anything world 5000 "gpt-4" "OpenAI"
           [message "user" "hi"] None (Some body_of) 7%N).
  reflexivity.
Defined.


Section Dispatch.
Context (w : World).
Implicit Types (max_tokens : Z) (model vendor : string)
  (messages : list (gmap string string)) (functions : option (list string))
  (callback : option (response → outcome string)) (bucket : state).




End Dispatch.



(** C8.  When the OpenAI client answers with an OpenAIObject, the path
    with a callback hands that very object to the callback and returns the
    string the callback returns, unchanged; without a callback it returns
    the fixed sentence.  The limiter's bucket is not touched. *)
Theorem complete_openai_text_success (w : World) (max_tokens : Z)
    (model : string) (messages : list (gmap string string))
    (functions : option (list string))
    (callback : option (response → outcome string)) (bucket : state)
    (raw : response) :
  ChatCompletion_create w model max_tokens messages functions "auto"
  = Returned raw →
  is_OpenAIObject raw = true →
  (∀ cb text,
     callback = Some cb → cb raw = Returned text →
     complete_openai_text w max_tokens model messages functions callback
       bucket
     = (Returned text, bucket,
        [Enter_complete_openai_text;
         OpenAI_request model max_tokens messages functions "auto";
         Callback raw]))
  ∧ (callback = None →
     complete_openai_text w max_tokens model messages functions callback
       bucket
     = (Returned "Response doesn't have choices or choices have no text.",
        bucket,
        [Enter_complete_openai_text;
         OpenAI_request model max_tokens messages functions "auto"])).
Proof.
  intros Hcreate Hobject. split.
  - intros cb text -> Hcb. run. by rewrite Hcreate, Hobject, Hcb.
  - intros ->. run. by rewrite Hcreate, Hobject.
Qed.

Lemma complete_openai_text_success_witness :
  complete_openai_text world 100 "gpt-4" [message "user" "hi"] None
    (Some body_of) 3%N
  = (Returned "flowchart", 3%N,
     [Enter_complete_openai_text;
      OpenAI_request "gpt-4" 100 [message "user" "hi"] None "auto";
      Callback {| is_OpenAIObject := true; body := "flowchart" |}])
  ∧ complete_openai_text world 100 "gpt-4" [message "user" "hi"] None None
      3%N
    = (Returned "Response doesn't have choices or choices have no text.",
       3%N,
       [Enter_complete_openai_text;
        OpenAI_request "gpt-4" 100 [message "user" "hi"] None "auto"]).
Proof.
  split.
  - apply (proj1 (complete_openai_text_success world 100 "gpt-4"
             [message "user" "hi"] None (Some body_of) 3%N
             {| is_OpenAIObject := true; body := "flowchart" |}
             eq_refl eq_refl) body_of "flowchart" eq_refl eq_refl).
  - apply (proj2 (complete_openai_text_success world 100 "gpt-4"
             [message "user" "hi"] None None 3%N
             {| is_OpenAIObject := true; body := "flowchart" |}
             eq_refl eq_refl) eq_refl).
Defined.


(** *** The failure policy of the dispatcher *)

Section Policy.
Context (w : World).
Implicit Types (max_tokens : Z) (model vendor : string)
  (messages : list (gmap string string)) (functions : option (list string))
  (callback : option (response → outcome string)) (bucket : state).








End Policy.





End LLMServiceProperties.

(** ** Properties of mermaid_service.py *)

Module MermaidServiceProperties.
Import MermaidService Statements Examples.

Ltac run :=
  unfold print, print_exc, emit, lift, raise, try_except;
  unfold mbind, M_bind, mret, M_ret.

Section Renderer.
Context (h : Host).

(** *** The primitives *)

Lemma NamedTemporaryFile_run delete suffix σ :
  (∃ e, NamedTemporaryFile h delete suffix σ = (Raised e, σ, []))
  ∨ (∃ n, files σ !! n = None
          ∧ NamedTemporaryFile h delete suffix σ
            = (Returned {| name := n; delete_flag := delete |},
               {| files := <[n := ""]> (files σ);
                  buffers := <[n := ""]> (buffers σ) |},
               [Created n])).
Proof.
  unfold NamedTemporaryFile.
  destruct (io_fault h _ _) as [e|]; [left; by exists e|].
  destruct (find _ _) as [n|] eqn:Hfind; [|left; by eexists].
  right. exists n. split; [|done].
  apply find_some in Hfind as [_ Hfree]. by apply bool_decide_eq_true in Hfree.
Qed.

Lemma write_run f data σ buf :
  buffers σ !! name f = Some buf →
  (∃ e, write h f data σ = (Raised e, σ, []))
  ∨ write h f data σ
    = (Returned (String.length data),
       {| files := files σ; buffers := <[name f := buf +:+ data]> (buffers σ) |},
       [Wrote (name f) data]).
Proof.
  intros Hopen. unfold write. rewrite Hopen.
  destruct (io_fault h _ _) as [e|]; [left; by exists e | by right].
Qed.

Lemma close_closed f σ :
  buffers σ !! name f = None → close h f σ = (Returned tt, σ, []).
Proof. intros Hclosed. unfold close. by rewrite Hclosed. Qed.

Lemma close_open f σ buf :
  delete_flag f = false →
  buffers σ !! name f = Some buf →
  (∃ e, close h f σ
        = (Raised e,
           {| files := files σ; buffers := delete (name f) (buffers σ) |},
           [Closed (name f)]))
  ∨ close h f σ
    = (Returned tt,
       {| files := alter (λ old, old +:+ buf) (name f) (files σ);
          buffers := delete (name f) (buffers σ) |},
       [Closed (name f)]).
Proof.
  intros Hkeep Hopen. unfold close. rewrite Hopen, Hkeep.
  destruct (io_fault h _ _) as [e|]; [left; by exists e | by right].
Qed.

(** Closing a file made with [delete=False] removes nothing. *)
Lemma close_quiet f σ :
  delete_flag f = false → Forall (λ ev, quiet ev = true) (close h f σ).2.
Proof.
  intros Hkeep. destruct (buffers σ !! name f) as [buf|] eqn:Hbuf.
  - destruct (close_open f σ buf Hkeep Hbuf) as [[e ->]| ->];
      by repeat constructor.
  - rewrite close_closed by done. constructor.
Qed.

(** The handlers raise, print, and touch nothing. *)
Lemma report_run e σ :
  ∃ e' evs, report e σ = (Raised e', σ, evs)
            ∧ Forall (λ ev, quiet ev = true) evs.
Proof.
  destruct e as [cls message cause|code cmd out err]; unfold report; run.
  - destruct (issubclass cls Exception); simpl;
      do 2 eexists; (split; [reflexivity|]); by repeat constructor.
  - simpl. destruct (decode err) as [text|e']; simpl;
      do 2 eexists; (split; [reflexivity|]); by repeat constructor.
Qed.

(** *** Leaving a [with] block *)

Lemma exit_after_stopped_early {A} f (body : M os_state event A) σ :
  delete_flag f = false →
  stopped_early (body σ) → stopped_early (exit_after h f body σ).
Proof.
  intros Hkeep [Hraised Hquiet]. unfold exit_after.
  destruct (body σ) as [[r σ1] evs1]. simpl in *.
  pose proof (close_quiet f σ1 Hkeep) as Hclose.
  destruct (close h f σ1) as [[[[]|e] σ2] evs2]; simpl in *;
    (split; [done | by apply Forall_app]).
Qed.

Lemma exit_after_closed {A} f (body : M os_state event A) σ :
  buffers (body σ).1.2 !! name f = None →
  exit_after h f body σ = body σ.
Proof.
  intros Hclosed. unfold exit_after.
  destruct (body σ) as [[r σ1] evs1]. simpl in *.
  rewrite close_closed by done. by rewrite app_nil_r.
Qed.

(** *** The block under the [with] *)

Lemma bind_run {A B} (m : M os_state event A) (f : A → M os_state event B) σ :
  (m ≫= f) σ
  = match m σ with
    | (Returned a, σ1, evs1) =>
        let '(r, σ2, evs2) := f a σ1 in (r, σ2, evs1 ++ evs2)
    | (Raised e, σ1, evs1) => (Raised e, σ1, evs1)
    end.
Proof. reflexivity. Qed.

(** After the child: decoding and printing. *)
Lemma render_tail_run temp_out argv out err σ :
  ∃ evs,
    (o ← lift (decode out);
     _ ← print ("Mermaid CLI Output: " +:+ o);
     e ← lift (decode err);
     _ ← print ("Mermaid CLI Errors: " +:+ e);
     mret {| path := temp_out; media_type := "image/svg+xml" |}) σ
    = (render_outcome temp_out argv (Returned (0%Z, out, err)), σ, evs)
    ∧ Forall (λ ev, quiet ev = true) evs.
Proof.
  unfold render_outcome. run. simpl.
  destruct (decode out) as [o|e]; simpl.
  - destruct (decode err) as [e'|e]; simpl;
      eexists; (split; [reflexivity|]); by repeat constructor.
  - eexists; (split; [reflexivity|]); by repeat constructor.
Qed.

Lemma render_run script temp_in temp_out σ x :
  delete_flag temp_in = false → delete_flag temp_out = false →
  name temp_in ≠ name temp_out →
  buffers σ !! name temp_in = Some "" → buffers σ !! name temp_out = Some "" →
  files σ !! name temp_in = Some "" → files σ !! name temp_out = Some "" →
  render h script temp_in temp_out σ = x →
  stopped_early x
  ∨ ∃ fs bufs,
      started_child h script (name temp_in) (name temp_out) fs bufs
        [Wrote (name temp_in) (encode (mermaid_script script));
         Closed (name temp_in); Closed (name temp_out)] x
      ∧ (∀ p, p ≠ name temp_in → p ≠ name temp_out → fs !! p = files σ !! p)
      ∧ x.1.1
        = render_outcome (name temp_out)
            ["mmdc"; "-i"; name temp_in; "-o"; name temp_out]
            (child h ["mmdc"; "-i"; name temp_in; "-o"; name temp_out] fs).1.
Proof.
  intros Hkeep_in Hkeep_out Hne Hbuf_in Hbuf_out Hfile_in Hfile_out Hx.
  unfold render in Hx. rewrite bind_run in Hx.
  destruct (write_run temp_in (encode (mermaid_script script)) σ ""
              Hbuf_in) as [[e Hstep]|Hstep]; rewrite Hstep in Hx; clear Hstep.
  { left. subst x. split; [done | constructor]. }
  set (σ1 := {| files := files σ; buffers := _ |}) in Hx.
  rewrite bind_run in Hx.
  destruct (close_open temp_in σ1 (encode (mermaid_script script))
              Hkeep_in) as [[e Hstep]|Hstep].
  { subst σ1. simpl. by rewrite lookup_insert_eq. }
  { rewrite Hstep in Hx. left. subst x. split; [done | by repeat constructor]. }
  rewrite Hstep in Hx; clear Hstep.
  set (σ2 := {| files := alter _ _ _; buffers := _ |}) in Hx.
  rewrite bind_run in Hx.
  destruct (close_open temp_out σ2 "" Hkeep_out) as [[e Hstep]|Hstep].
  { subst σ2 σ1. simpl. rewrite lookup_delete_ne by done.
    by rewrite lookup_insert_ne. }
  { rewrite Hstep in Hx. left. subst x. split; [done | by repeat constructor]. }
  rewrite Hstep in Hx; clear Hstep.
  set (σ3 := {| files := alter _ _ _; buffers := _ |}) in Hx.
  set (argv := ["mmdc"; "-i"; name temp_in; "-o"; name temp_out]) in *.
  right. exists (files σ3), (buffers σ3).
  assert (Hin : files σ3 !! name temp_in = Some (encode (mermaid_script script))).
  { subst σ3 σ2 σ1. simpl. rewrite lookup_alter_ne by done.
    rewrite lookup_alter_eq, Hfile_in. done. }
  assert (Hout : files σ3 !! name temp_out = Some "").
  { subst σ3 σ2 σ1. simpl. rewrite lookup_alter_eq.
    rewrite lookup_alter_ne by done. by rewrite Hfile_out. }
  assert (Hframe : ∀ p, p ≠ name temp_in → p ≠ name temp_out →
                        files σ3 !! p = files σ !! p).
  { intros p Hp_in Hp_out. subst σ3 σ2 σ1. simpl.
    by rewrite !lookup_alter_ne. }
  assert (Hbin : buffers σ3 !! name temp_in = None).
  { subst σ3 σ2 σ1. simpl. rewrite lookup_delete_ne by done.
    by rewrite lookup_delete_eq. }
  assert (Hbout : buffers σ3 !! name temp_out = None).
  { subst σ3 σ2 σ1. simpl. by rewrite lookup_delete_eq. }
  clearbody σ3. clear σ1 σ2.
  rewrite bind_run in Hx. unfold subprocess_run at 1 in Hx.
  destruct (child h argv (files σ3)) as [result fs'] eqn:Hchild. simpl.
  unfold started_child. fold argv. rewrite Hchild. simpl.
  assert (Hpre : Forall (λ ev, quiet ev = true)
            [Wrote (name temp_in) (encode (mermaid_script script));
             Closed (name temp_in); Closed (name temp_out)])
    by (by repeat constructor).
  destruct result as [[[code out] err]|e].
  - destruct (code =? 0)%Z eqn:Hcode; simpl in Hx.
    + apply Z.eqb_eq in Hcode as ->.
      destruct (render_tail_run (name temp_out) argv out err
                  {| files := fs'; buffers := buffers σ3 |})
        as (evs & Htail & Hquiet).
      rewrite Htail in Hx. subst x. simpl.
      split; [|done]. split; [|by repeat split]. by exists evs.
    + subst x. unfold render_outcome. rewrite Hcode. simpl.
      split; [|done]. split; [|by repeat split]. exists []. by split.
  - simpl in Hx. subst x. simpl. split; [|done]. split; [|by repeat split].
    exists []. by split.
Qed.

(** *** Around the block: the two [with] items and the handlers *)

(** Quiet events before a run change neither verdict. *)
Lemma stopped_early_prefix {A} pre (x : outcome A * os_state * list event) :
  Forall (λ ev, quiet ev = true) pre →
  stopped_early x → stopped_early (x.1.1, x.1.2, pre ++ x.2).
Proof. intros Hpre [Hraised Hquiet]. split; [done | by apply Forall_app]. Qed.

Lemma started_child_prefix script temp_in temp_out fs bufs pre0 pre x :
  Forall (λ ev, quiet ev = true) pre0 →
  started_child h script temp_in temp_out fs bufs pre x →
  started_child h script temp_in temp_out fs bufs (pre0 ++ pre)
    (x.1.1, x.1.2, pre0 ++ x.2).
Proof.
  intros Hpre0 ((post & Hevs & Hpost) & Hpre & Hrest).
  split; [|split; [by apply Forall_app | exact Hrest]]. exists post. simpl.
  rewrite Hevs, app_assoc. by split.
Qed.

(** The handlers keep both verdicts. *)
Lemma try_except_report_stopped_early body σ :
  stopped_early (body σ) → stopped_early (try_except body report σ).
Proof.
  intros [Hraised Hquiet]. unfold try_except.
  destruct (body σ) as [[[response|e] σ1] evs1]; [done|]. simpl in *.
  destruct (report_run e σ1) as (e' & evs & -> & Hevs).
  split; [done | by apply Forall_app].
Qed.

Lemma try_except_report_started_child script temp_in temp_out fs bufs pre
    body σ :
  started_child h script temp_in temp_out fs bufs pre (body σ) →
  started_child h script temp_in temp_out fs bufs pre
    (try_except body report σ)
  ∧ (try_except body report σ).1.1
    = match (body σ).1.1 with
      | Returned response => Returned response
      | Raised e => (report e (try_except body report σ).1.2).1.1
      end.
Proof.
  intros ((post & Hevs & Hpost) & Hrest). unfold try_except.
  destruct (body σ) as [[[response|e] σ1] evs1]; simpl in *.
  - split; [|done]. split; [|exact Hrest]. by exists post.
  - destruct (report_run e σ1) as (e' & evs & Hreport & Hquiet).
    rewrite Hreport. simpl. rewrite Hreport. simpl. split; [|done].
    split; [|exact Hrest]. exists (post ++ evs). subst evs1.
    rewrite <- app_assoc. split; [done | by apply Forall_app].
Qed.

Lemma bind_created {A} n (x y : outcome A * os_state * list event) :
  (let '(r, σ2, evs2) := y in (r, σ2, [Created n] ++ evs2)) = x →
  x = (y.1.1, y.1.2, [Created n] ++ y.2).
Proof. by destruct y as [[r σ2] evs2]. Qed.

(** The second item of the [with], the input file being open and empty. *)
Lemma with_output_run script temp_in σ x :
  delete_flag temp_in = false →
  buffers σ !! name temp_in = Some "" → files σ !! name temp_in = Some "" →
  with_ h (NamedTemporaryFile h false ".svg")
    (λ temp_out, render h script temp_in temp_out) σ = x →
  stopped_early x
  ∨ ∃ temp_out fs bufs,
      let argv := ["mmdc"; "-i"; name temp_in; "-o"; temp_out] in
      started_child h script (name temp_in) temp_out fs bufs
        [Created temp_out;
         Wrote (name temp_in) (encode (mermaid_script script));
         Closed (name temp_in); Closed temp_out] x
      ∧ files σ !! temp_out = None
      ∧ name temp_in ≠ temp_out
      ∧ (∀ p, p ≠ name temp_in → p ≠ temp_out → fs !! p = files σ !! p)
      ∧ x.1.1 = render_outcome temp_out argv (child h argv fs).1.
Proof.
  intros Hkeep Hbuf Hfile Hx. unfold with_ in Hx. rewrite bind_run in Hx.
  destruct (NamedTemporaryFile_run false ".svg" σ)
    as [[e Hstep]|(n2 & Hfresh & Hstep)]; rewrite Hstep in Hx; clear Hstep.
  { left. subst x. split; [done | constructor]. }
  assert (Hne : name temp_in ≠ n2) by (intros <-; congruence).
  set (temp_out := {| name := n2; delete_flag := false |}) in Hx.
  set (σ2 := {| files := <[n2 := ""]> (files σ); buffers := _ |}) in Hx.
  apply bind_created in Hx. subst x.
  assert (Hbuf_in : buffers σ2 !! name temp_in = Some "").
  { subst σ2. simpl. by rewrite lookup_insert_ne. }
  assert (Hbuf_out : buffers σ2 !! name temp_out = Some "").
  { subst σ2. simpl. by rewrite lookup_insert_eq. }
  assert (Hfile_in : files σ2 !! name temp_in = Some "").
  { subst σ2. simpl. by rewrite lookup_insert_ne. }
  assert (Hfile_out : files σ2 !! name temp_out = Some "").
  { subst σ2. simpl. by rewrite lookup_insert_eq. }
  destruct (render_run script temp_in temp_out σ2 _ Hkeep eq_refl Hne
              Hbuf_in Hbuf_out Hfile_in Hfile_out eq_refl)
    as [Hstop|(fs & bufs & Hrun & Hframe & Hr)].
  - left. apply (stopped_early_prefix [Created n2]); [by repeat constructor|].
    by apply (exit_after_stopped_early temp_out).
  - right. exists n2, fs, bufs.
    rewrite exit_after_closed.
    2:{ destruct Hrun as (_ & _ & _ & _ & _ & Hclosed & ->). done. }
    split; [|split; [done|split; [done|split; [|done]]]].
    + apply (started_child_prefix _ _ _ _ _ [Created n2]);
        [by repeat constructor | done].
    + intros p Hp1 Hp2. rewrite Hframe by done. subst σ2. simpl.
      by rewrite lookup_insert_ne.
Qed.

(** The whole of a run: it stops before the child quietly and with an
    exception, or it starts the child once, on two fresh and distinct
    temporary files, and ends as the block and the handlers decide. *)
Lemma create_mermaid_diagram_run script σ :
  let x := create_mermaid_diagram h script σ in
  stopped_early x
  ∨ ∃ temp_in temp_out fs bufs,
      let argv := ["mmdc"; "-i"; temp_in; "-o"; temp_out] in
      started_child h script temp_in temp_out fs bufs
        [Created temp_in; Created temp_out;
         Wrote temp_in (encode (mermaid_script script));
         Closed temp_in; Closed temp_out] x
      ∧ files σ !! temp_in = None
      ∧ files σ !! temp_out = None
      ∧ temp_in ≠ temp_out
      ∧ (∀ p, p ≠ temp_in → p ≠ temp_out → fs !! p = files σ !! p)
      ∧ x.1.1 = match render_outcome temp_out argv (child h argv fs).1 with
                | Returned response => Returned response
                | Raised e => (report e x.1.2).1.1
                end.
Proof.
  unfold create_mermaid_diagram.
  set (body := with_ h _ _).
  assert (Hbody :
    stopped_early (body σ)
    ∨ ∃ temp_in temp_out fs bufs,
        let argv := ["mmdc"; "-i"; temp_in; "-o"; temp_out] in
        started_child h script temp_in temp_out fs bufs
          [Created temp_in; Created temp_out;
           Wrote temp_in (encode (mermaid_script script));
           Closed temp_in; Closed temp_out] (body σ)
        ∧ files σ !! temp_in = None
        ∧ files σ !! temp_out = None
        ∧ temp_in ≠ temp_out
        ∧ (∀ p, p ≠ temp_in → p ≠ temp_out → fs !! p = files σ !! p)
        ∧ (body σ).1.1 = render_outcome temp_out argv (child h argv fs).1).
  2:{ destruct Hbody as [Hstop|(tin & tout & fs & bufs & Hrun & ? & ? & ? & ? & Hr)].
      - left. by apply try_except_report_stopped_early.
      - right. exists tin, tout, fs, bufs.
        destruct (try_except_report_started_child _ _ _ _ _ _ _ _ Hrun)
          as [Hrun' Hr'].
        do 5 (split; [done|]). rewrite Hr'. by rewrite Hr. }
  remember (body σ) as x eqn:Hx. symmetry in Hx. subst body.
  unfold with_ at 1 in Hx. rewrite bind_run in Hx.
  destruct (NamedTemporaryFile_run false ".mmd" σ)
    as [[e Hstep]|(n1 & Hfresh1 & Hstep)]; rewrite Hstep in Hx; clear Hstep.
  { left. subst x. split; [done | constructor]. }
  set (temp_in := {| name := n1; delete_flag := false |}) in Hx.
  set (σ1 := {| files := <[n1 := ""]> (files σ); buffers := _ |}) in Hx.
  apply bind_created in Hx. subst x.
  assert (Hbuf_in : buffers σ1 !! name temp_in = Some "").
  { subst σ1. simpl. by rewrite lookup_insert_eq. }
  assert (Hfile_in : files σ1 !! name temp_in = Some "").
  { subst σ1. simpl. by rewrite lookup_insert_eq. }
  destruct (with_output_run script temp_in σ1 _ eq_refl Hbuf_in Hfile_in
              eq_refl)
    as [Hstop|(n2 & fs & bufs & Hrun & Hfresh2 & Hne & Hframe & Hr)].
  - left. apply (stopped_early_prefix [Created n1]); [by repeat constructor|].
    by apply (exit_after_stopped_early temp_in).
  - right. exists n1, n2, fs, bufs. simpl in Hne.
    rewrite exit_after_closed.
    2:{ destruct Hrun as (_ & _ & _ & _ & Hclosed & _ & ->). done. }
    assert (Hfresh2' : files σ !! n2 = None).
    { subst σ1. simpl in Hfresh2. by rewrite lookup_insert_ne in Hfresh2. }
    split; [|split; [done|split; [done|split; [done|split; [|done]]]]].
    + apply (started_child_prefix _ _ _ _ _ [Created n1]);
        [by repeat constructor | done].
    + intros p Hp1 Hp2. rewrite Hframe by done. subst σ1. simpl.
      by rewrite lookup_insert_ne.
Qed.

Lemma not_quiet_unique pre post (ev0 ev : event) :
  Forall (λ ev, quiet ev = true) pre →
  Forall (λ ev, quiet ev = true) post →
  quiet ev = false →
  ev ∈ pre ++ ev0 :: post → ev = ev0.
Proof.
  intros Hpre Hpost Hloud
    [Hin|[->|Hin]%elem_of_cons]%elem_of_app; [|done|].
  - rewrite Forall_forall in Hpre. apply Hpre in Hin. congruence.
  - rewrite Forall_forall in Hpost. apply Hpost in Hin. congruence.
Qed.

Lemma stopped_early_quiet {A} (x : outcome A * os_state * list event) ev :
  stopped_early x → ev ∈ x.2 → quiet ev = true.
Proof. intros [_ Hquiet]. rewrite Forall_forall in Hquiet. apply Hquiet. Qed.

End Renderer.

(** What a run that started a child tells about any child it started. *)
Lemma started_child_spawned h script temp_in temp_out fs bufs pre x
    argv fs0 bufs0 result fs' :
  started_child h script temp_in temp_out fs bufs pre x →
  Spawned argv fs0 bufs0 result fs' ∈ x.2 →
  argv = ["mmdc"; "-i"; temp_in; "-o"; temp_out] ∧ fs0 = fs ∧ bufs0 = bufs
  ∧ child h argv fs = (result, fs')
  ∧ ∃ post, x.2 = pre ++ Spawned argv fs0 bufs0 result fs' :: post
            ∧ Forall (λ ev, quiet ev = true) post.
Proof.
  intros ((post & Hevs & Hpost) & Hpre & _) Hin. rewrite Hevs in Hin.
  apply not_quiet_unique in Hin; [|done..].
  assert (Hshape : ∃ post, x.2 = pre ++ Spawned argv fs0 bufs0 result fs'
                                        :: post
                           ∧ Forall (λ ev, quiet ev = true) post).
  { exists post. by rewrite Hin. }
  injection Hin as -> -> -> -> ->.
  do 3 (split; [done|]). split; [|done]. by destruct (child h _ fs).
Qed.

(** C9, as the code has it.  Whenever [create_mermaid_diagram] starts the
    child process, what it did before is exactly this, in this order: it
    created two distinct temporary files that did not exist when the call
    began, wrote the whole encoded script to the input file, closed the
    input file and closed the output file; the child then finds the script
    in the input file, the output file empty and both closed; and nothing
    that follows starts a second child.  On no path, success or failure,
    does the function remove a file. *)
Theorem create_mermaid_diagram_temporary_files (h : Host)
    (script : MermaidScript) (σ : os_state) :
  let evs := (create_mermaid_diagram h script σ).2 in
  (∀ argv fs bufs result fs',
     Spawned argv fs bufs result fs' ∈ evs →
     ∃ temp_in temp_out post,
       argv = ["mmdc"; "-i"; temp_in; "-o"; temp_out]
       ∧ files σ !! temp_in = None
       ∧ files σ !! temp_out = None
       ∧ temp_in ≠ temp_out
       ∧ evs = [Created temp_in; Created temp_out;
                Wrote temp_in (encode (mermaid_script script));
                Closed temp_in; Closed temp_out;
                Spawned argv fs bufs result fs'] ++ post
       ∧ Forall (λ ev, quiet ev = true) post
       ∧ fs !! temp_in = Some (encode (mermaid_script script))
       ∧ fs !! temp_out = Some ""
       ∧ bufs !! temp_in = None
       ∧ bufs !! temp_out = None)
  ∧ (∀ file, Unlinked file ∉ evs).
Proof.
  intros evs. subst evs.
  destruct (create_mermaid_diagram_run h script σ)
    as [Hstop|(tin & tout & fs & bufs & Hrun & Hf1 & Hf2 & Hne & _ & _)].
  - split.
    + intros argv fs bufs result fs' Hin.
      by apply (stopped_early_quiet _ _ Hstop) in Hin.
    + intros file Hin. by apply (stopped_early_quiet _ _ Hstop) in Hin.
  - split.
    + intros argv fs0 bufs0 result fs' Hin.
      destruct (started_child_spawned _ _ _ _ _ _ _ _ _ _ _ _ _ Hrun Hin)
        as (-> & -> & -> & _ & post & Hevs & Hpost).
      destruct Hrun as (_ & _ & Hin_full & Hout_empty & Hbin & Hbout & _).
      exists tin, tout, post. by rewrite Hevs.
    + intros file Hin.
      destruct Hrun as ((post & Hevs & Hpost) & Hpre & _).
      rewrite Hevs in Hin.
      by apply not_quiet_unique in Hin.
Qed.

Lemma create_mermaid_diagram_temporary_files_witness :
  let evs := (create_mermaid_diagram
                (host false 0 "Generating single mermaid chart" "")
                {| mermaid_script := "graph TD; A-->B" |} disc).2 in
  let fs := <["/tmp/tmpq81z.mmd" := "graph TD; A-->B"]>
              (<["/tmp/tmpk3x0.svg" := ""]> (files disc)) in
  let argv := ["mmdc"; "-i"; "/tmp/tmpq81z.mmd"; "-o"; "/tmp/tmpk3x0.svg"] in
  ∃ temp_in temp_out post,
    argv = ["mmdc"; "-i"; temp_in; "-o"; temp_out]
    ∧ files disc !! temp_in = None
    ∧ files disc !! temp_out = None
    ∧ temp_in ≠ temp_out
    ∧ evs = [Created temp_in; Created temp_out;
             Wrote temp_in (encode "graph TD; A-->B");
             Closed temp_in; Closed temp_out;
             Spawned argv fs ∅
               (Returned (0%Z, "Generating single mermaid chart", ""))
               (<["/tmp/tmpk3x0.svg" := "<svg/>"]> fs)] ++ post
    ∧ Forall (λ ev, quiet ev = true) post
    ∧ fs !! temp_in = Some (encode "graph TD; A-->B")
    ∧ fs !! temp_out = Some ""
    ∧ (∅ : gmap string string) !! temp_in = None
    ∧ (∅ : gmap string string) !! temp_out = None.
Proof.
  apply (proj1 (create_mermaid_diagram_temporary_files
                  (host false 0 "Generating single mermaid chart" "")
                  {| mermaid_script := "graph TD; A-->B" |} disc)
           ["mmdc"; "-i"; "/tmp/tmpq81z.mmd"; "-o"; "/tmp/tmpk3x0.svg"]
           (<["/tmp/tmpq81z.mmd" := "graph TD; A-->B"]>
              (<["/tmp/tmpk3x0.svg" := ""]> (files disc)))
           ∅
           (Returned (0%Z, "Generating single mermaid chart", ""))
           (<["/tmp/tmpk3x0.svg" := "<svg/>"]>
              (<["/tmp/tmpq81z.mmd" := "graph TD; A-->B"]>
                 (<["/tmp/tmpk3x0.svg" := ""]> (files disc))))).
  vm_compute. do 5 apply list_elem_of_further. apply list_elem_of_here.
Defined.

(** C9 does not hold as the specification words it: when the temporary
    input file cannot be created, the run ends in the unexpected failure
    without the script being written anywhere; the file system is as it
    was. *)
Lemma create_mermaid_diagram_writes_nothing :
  create_mermaid_diagram (host true 0 "" "")
    {| mermaid_script := "graph TD; A-->B" |} disc
  = (Raised (Exn MermaidUnexpectedError
               "Unexpected error occurred: [Errno 28] No space left on device"
               (Some (Exn OSError "[Errno 28] No space left on device" None))),
     disc,
     [Printed "Unexpected Exception:"; Printed_exc]).
Proof. reflexivity. Qed.



(** C6, as the code has it.  When the renderer ends with exit code 0,
    having written the output file, and the bytes it wrote to its standard
    output and standard error decode as UTF-8, [create_mermaid_diagram]
    returns a response of content type image/svg+xml on the path of the
    output temporary file, whose body is what the renderer left there. *)
Theorem create_mermaid_diagram_returns_svg (h : Host) (script : MermaidScript)
    (σ : os_state) (temp_in temp_out : string) (fs bufs fs' : gmap string string)
    (out err svg : string) :
  let x := create_mermaid_diagram h script σ in
  Spawned ["mmdc"; "-i"; temp_in; "-o"; temp_out] fs bufs
    (Returned (0%Z, out, err)) fs' ∈ x.2 →
  fs' !! temp_out = Some svg →
  is_returned (decode out) = true →
  is_returned (decode err) = true →
  x.1.1 = Returned {| path := temp_out; media_type := "image/svg+xml" |}
  ∧ response_body x.1.2
      {| path := temp_out; media_type := "image/svg+xml" |} = Some svg.
Proof.
  intros x Hin Hsvg Hout Herr. subst x.
  destruct (create_mermaid_diagram_run h script σ)
    as [Hstop|(tin & tout & fs0 & bufs0 & Hrun & _ & _ & _ & _ & Hr)].
  { by apply (stopped_early_quiet _ _ Hstop) in Hin. }
  destruct (started_child_spawned _ _ _ _ _ _ _ _ _ _ _ _ _ Hrun Hin)
    as (Hargv & -> & -> & Hchild & _).
  injection Hargv as -> ->.
  destruct Hrun as (_ & _ & _ & _ & _ & _ & Hstate).
  rewrite Hchild in Hr, Hstate. simpl in Hr, Hstate. split.
  - rewrite Hr. unfold render_outcome. simpl.
    destruct (decode out); [|done]. by destruct (decode err).
  - unfold response_body. by rewrite Hstate.
Qed.

Lemma create_mermaid_diagram_returns_svg_witness :
  (create_mermaid_diagram (host false 0 "Generating single mermaid chart" "")
     {| mermaid_script := "graph TD; A-->B" |} disc).1.1
  = Returned {| path := "/tmp/tmpk3x0.svg"; media_type := "image/svg+xml" |}
  ∧ response_body
      (create_mermaid_diagram
         (host false 0 "Generating single mermaid chart" "")
         {| mermaid_script := "graph TD; A-->B" |} disc).1.2
      {| path := "/tmp/tmpk3x0.svg"; media_type := "image/svg+xml" |}
    = Some "<svg/>".
Proof.
  apply (create_mermaid_diagram_returns_svg
           (host false 0 "Generating single mermaid chart" "")
           {| mermaid_script := "graph TD; A-->B" |} disc
           "/tmp/tmpq81z.mmd" "/tmp/tmpk3x0.svg"
           (<["/tmp/tmpq81z.mmd" := "graph TD; A-->B"]>
              (<["/tmp/tmpk3x0.svg" := ""]> (files disc)))
           ∅
           (<["/tmp/tmpk3x0.svg" := "<svg/>"]>
              (<["/tmp/tmpq81z.mmd" := "graph TD; A-->B"]>
                 (<["/tmp/tmpk3x0.svg" := ""]> (files disc))))
           "Generating single mermaid chart" "" "<svg/>").
  - vm_compute. do 5 apply list_elem_of_further. apply list_elem_of_here.
  - reflexivity.
  - reflexivity.
  - reflexivity.
Defined.

(** C6 does not hold as the specification words it: a renderer that ends
    with exit code 0 and has written the image, but whose standard output
    is not UTF-8, makes the call raise the unexpected failure. *)
Lemma create_mermaid_diagram_undecodable_stdout :
  let x := create_mermaid_diagram (host false 0 byte_ff "")
             {| mermaid_script := "graph TD; A-->B" |} disc in
  children x.2
  = [(["mmdc"; "-i"; "/tmp/tmpq81z.mmd"; "-o"; "/tmp/tmpk3x0.svg"],
      Returned (0%Z, byte_ff, ""), Some "<svg/>")]
  ∧ x.1.1
    = Raised (Exn MermaidUnexpectedError
                "Unexpected error occurred: 'utf-8' codec can't decode bytes"
                (Some (Exn UnicodeDecodeError
                         "'utf-8' codec can't decode bytes" None))).
Proof. split; reflexivity. Qed.

(** A renderer that ends with a non-zero exit code, its standard error
    being UTF-8 text: the call raises MermaidCliError with that text. *)
Lemma create_mermaid_diagram_cli_failure (h : Host) (script : MermaidScript)
    (σ : os_state) (argv : list string) (fs bufs fs' : gmap string string)
    (code : Z) (out err text : string) :
  let x := create_mermaid_diagram h script σ in
  Spawned argv fs bufs (Returned (code, out, err)) fs' ∈ x.2 →
  code ≠ 0%Z →
  decode err = Returned text →
  x.1.1 = Raised (Exn MermaidCliError ("Mermaid CLI failed: " +:+ text)
                    (Some (CalledProcessError code argv out err))).
Proof.
  intros x Hin Hcode Herr. subst x.
  destruct (create_mermaid_diagram_run h script σ)
    as [Hstop|(tin & tout & fs0 & bufs0 & Hrun & _ & _ & _ & _ & Hr)].
  { by apply (stopped_early_quiet _ _ Hstop) in Hin. }
  destruct (started_child_spawned _ _ _ _ _ _ _ _ _ _ _ _ _ Hrun Hin)
    as (-> & -> & -> & Hchild & _).
  rewrite Hchild in Hr. simpl in Hr. rewrite Hr. unfold render_outcome.
  apply Z.eqb_neq in Hcode. rewrite Hcode. simpl.
  unfold report. run. simpl. by rewrite Herr.
Qed.

(** C5 at the specification's own example, and where the code leaves it:
    with "parse error" on the standard error of a renderer that ends with
    exit code 1 the call raises MermaidCliError carrying "parse error"; with
    a standard error that is not UTF-8 the handler itself fails at
    [err.stderr.decode()], and what leaves the call is a UnicodeDecodeError,
    neither of the two failures of the service. *)
Theorem create_mermaid_diagram_undecodable_stderr :
  (create_mermaid_diagram (host false 1 "" "parse error")
     {| mermaid_script := "graph TD; A-->" |} disc).1.1
  = Raised (Exn MermaidCliError "Mermaid CLI failed: parse error"
              (Some (CalledProcessError 1
                       ["mmdc"; "-i"; "/tmp/tmpq81z.mmd"; "-o";
                        "/tmp/tmpk3x0.svg"] "" "parse error")))
  ∧ children (create_mermaid_diagram (host false 1 "" byte_ff)
                {| mermaid_script := "graph TD; A-->" |} disc).2
    = [(["mmdc"; "-i"; "/tmp/tmpq81z.mmd"; "-o"; "/tmp/tmpk3x0.svg"],
        Returned (1%Z, "", byte_ff), Some "")]
  ∧ (create_mermaid_diagram (host false 1 "" byte_ff)
       {| mermaid_script := "graph TD; A-->" |} disc).1.1
    = Raised (Exn UnicodeDecodeError "'utf-8' codec can't decode bytes" None).
Proof. repeat split; reflexivity. Qed.


End MermaidServiceProperties.

(** ** Further properties of llm_service.py *)

Module LLMServiceFurther.
Import LLMService Statements Examples Further LLMServiceProperties.

(** *** [get_llm_by_id] *)

Lemma find_first {A} (f : A → bool) (l : list A) (x : A) :
  find f l = Some x →
  ∃ before after, l = before ++ x :: after ∧ f x = true
                  ∧ Forall (λ y, f y = false) before.
Proof.
  induction l as [|y l IH]; simpl; [done|].
  destruct (f y) eqn:Hy.
  - intros [= ->]. by exists [], l.
  - intros (before & after & -> & Hx & Hbefore)%IH.
    exists (y :: before), after. by repeat constructor.
Qed.

Lemma find_nothing {A} (f : A → bool) (l : list A) :
  find f l = None → Forall (λ y, f y = false) l.
Proof.
  induction l as [|y l IH]; simpl; [constructor|].
  destruct (f y) eqn:Hy; [done|]. intros H. by constructor; [|apply IH].
Qed.

(** X1.  What [get_llm_by_id] returns is telling: None only when no
    definition of any vendor has the id, and a definition only when it has
    the id, stands in the configuration, and no definition before it, in
    the order of the scan, has the id. *)
Theorem get_llm_by_id_result (llm_config : LLMConfig) (llm_id : string) :
  (get_llm_by_id llm_config llm_id = None →
   Forall (λ llm, id llm ≠ llm_id) (all_llms llm_config))
  ∧ (∀ llm,
       get_llm_by_id llm_config llm_id = Some llm →
       id llm = llm_id
       ∧ ∃ before after,
           all_llms llm_config = before ++ llm :: after
           ∧ Forall (λ earlier, id earlier ≠ llm_id) before).
Proof.
  rewrite get_llm_by_id_find. split.
  - intros Hnone%find_nothing. eapply Forall_impl; [exact Hnone|].
    intros llm. by intros ?%bool_decide_eq_false.
  - intros llm (before & after & Hall & Hid & Hbefore)%find_first.
    apply bool_decide_eq_true in Hid. split; [done|].
    exists before, after. split; [done|].
    eapply Forall_impl; [exact Hbefore|].
    intros earlier. by intros ?%bool_decide_eq_false.
Qed.

Lemma get_llm_by_id_result_witness :
  Forall (λ llm, id llm ≠ "llama") (all_llms config)
  ∧ id (llm "gpt-4" "OpenAI") = "gpt-4"
  ∧ ∃ before after,
      all_llms config = before ++ llm "gpt-4" "OpenAI" :: after
      ∧ Forall (λ earlier, id earlier ≠ "gpt-4") before.
Proof.
  split.
  - apply (proj1 (get_llm_by_id_result config "llama")). reflexivity.
  - apply (proj2 (get_llm_by_id_result config "gpt-4")
             (llm "gpt-4" "OpenAI")).
    reflexivity.
Defined.

(** X2.  Vendors appended to a configuration never hide a model: the lookup
    in the longer configuration is the lookup in the shorter one, and only
    when that finds nothing the lookup among the appended vendors. *)
Theorem get_llm_by_id_more_vendors (llm_config : LLMConfig)
    (more : list (string * list LLMDefinition)) (names : list string)
    (llm_id : string) :
  get_llm_by_id (with_more_vendors llm_config more) llm_id
  = match get_llm_by_id llm_config llm_id with
    | Some llm => Some llm
    | None =>
        get_llm_by_id {| llm_vendors := more; llm_vendor_names := names |}
          llm_id
    end.
Proof.
  rewrite !get_llm_by_id_find. unfold all_llms, with_more_vendors. simpl.
  by rewrite fmap_app, concat_app, find_append.
Qed.

(** *** [format_anthropic_prompt] *)

Section FormatFurther.
Context (w : World).

(** The prompt built so far is only ever extended on the right. *)
Lemma format_step_prefix prompt m :
  format_anthropic_prompt_step w prompt m
  = match format_anthropic_prompt_step w "" m with
    | Returned s => Returned (prompt +:+ s)
    | Raised e => Raised e
    end.
Proof.
  unfold format_anthropic_prompt_step, getitem.
  destruct (m !! "role") as [role|]; simpl; [|done].
  destruct (bool_decide (role = "user")); simpl.
  - by destruct (m !! "content").
  - destruct (bool_decide (role = "assistant")); simpl.
    + by destruct (m !! "content").
    + by rewrite append_empty_r.
Qed.

Lemma format_loop_prefix messages : ∀ prompt,
  format_anthropic_prompt_loop w prompt messages
  = match format_anthropic_prompt_loop w "" messages with
    | Returned s => Returned (prompt +:+ s)
    | Raised e => Raised e
    end.
Proof.
  induction messages as [|m rest IH]; intros prompt; simpl.
  - by rewrite append_empty_r.
  - rewrite (format_step_prefix prompt).
    destruct (format_anthropic_prompt_step w "" m) as [s|e]; simpl; [|done].
    rewrite (IH (prompt +:+ s)), (IH s).
    destruct (format_anthropic_prompt_loop w "" rest) as [t|e]; [|done].
    by rewrite append_assoc.
Qed.

Lemma format_loop_app first : ∀ prompt second,
  format_anthropic_prompt_loop w prompt (first ++ second)
  = match format_anthropic_prompt_loop w prompt first with
    | Returned prompt' => format_anthropic_prompt_loop w prompt' second
    | Raised e => Raised e
    end.
Proof.
  induction first as [|m rest IH]; intros prompt second; simpl; [done|].
  destruct (format_anthropic_prompt_step w prompt m) as [s|e]; simpl; [|done].
  apply IH.
Qed.

End FormatFurther.

(** X3.  The prompt of a conversation in two parts is the prompt of the
    first part followed by the prompt of the second; a KeyError of the
    first part is the result whatever the second part holds, and a KeyError
    of the second part is the result when the first part went through. *)
Theorem format_anthropic_prompt_app (w : World)
    (first second : list (gmap string string)) :
  format_anthropic_prompt w (first ++ second)
  = match format_anthropic_prompt w first with
    | Returned p1 =>
        match format_anthropic_prompt w second with
        | Returned p2 => Returned (p1 +:+ p2)
        | Raised e => Raised e
        end
    | Raised e => Raised e
    end.
Proof.
  unfold format_anthropic_prompt. rewrite format_loop_app.
  destruct (format_anthropic_prompt_loop w "" first) as [p1|e]; [|done].
  apply format_loop_prefix.
Qed.

(** X4.  The first message that lacks a key decides the error, whatever
    follows it: after messages that have their keys, a message without
    "role" raises KeyError('role'), and a message whose role is "user" or
    "assistant" and that has no "content" raises KeyError('content'). *)
Theorem format_anthropic_prompt_first_error (w : World)
    (good rest : list (gmap string string)) (m : gmap string string) :
  Forall (λ m, well_keyed m = true) good →
  (m !! "role" = None →
   format_anthropic_prompt w (good ++ m :: rest)
   = Raised (Exn KeyError "'role'" None))
  ∧ (∀ role,
       m !! "role" = Some role →
       role = "user" ∨ role = "assistant" →
       m !! "content" = None →
       format_anthropic_prompt w (good ++ m :: rest)
       = Raised (Exn KeyError "'content'" None)).
Proof.
  intros Hgood. unfold format_anthropic_prompt.
  rewrite format_loop_app, (format_loop_well_keyed w good "" Hgood).
  simpl. unfold format_anthropic_prompt_step, getitem. split.
  - by intros ->.
  - intros role -> [->| ->] ->; reflexivity.
Qed.

Lemma format_anthropic_prompt_first_error_witness :
  format_anthropic_prompt world
    ([message "user" "hi"] ++ {[ "content" := "no role" ]}
       :: [message "assistant" "hello"])
  = Raised (Exn KeyError "'role'" None)
  ∧ format_anthropic_prompt world
      ([message "user" "hi"] ++ {[ "role" := "assistant" ]}
         :: [∅])
    = Raised (Exn KeyError "'content'" None).
Proof.
  split.
  - apply (proj1 (format_anthropic_prompt_first_error world
             [message "user" "hi"] [message "assistant" "hello"]
             {[ "content" := "no role" ]}
             ltac:(repeat constructor))).
    reflexivity.
  - apply (proj2 (format_anthropic_prompt_first_error world
             [message "user" "hi"] [∅] {[ "role" := "assistant" ]}
             ltac:(repeat constructor)) "assistant").
    + reflexivity.
    + by right.
    + reflexivity.
Defined.


(** *** The Anthropic path, from [complete_text] down *)

Section AnthropicPath.
Context (w : World).
Implicit Types (max_tokens : Z) (model vendor : string)
  (messages : list (gmap string string)) (functions : option (list string))
  (callback : option (response → outcome string)) (bucket : state).

(** The path as a function of the three things it depends on. *)
Lemma complete_anthropic_text_run max_tokens model messages bucket :
  complete_anthropic_text w max_tokens model messages bucket
  = match getitem (environ w) "ANTHROPIC_API_KEY" with
    | Raised e =>
        (match caught_as AnthropicException e with
         | Some s => Returned ("Anthropic Client Error: " +:+ s)
         | None => Raised e
         end, bucket, [Enter_complete_anthropic_text])
    | Returned api_key =>
        match format_anthropic_prompt w messages with
        | Raised e =>
            (match caught_as AnthropicException e with
             | Some s => Returned ("Anthropic Client Error: " +:+ s)
             | None => Raised e
             end, bucket, [Enter_complete_anthropic_text])
        | Returned prompt =>
            (match completions_create w api_key prompt [HUMAN_PROMPT w]
                     model max_tokens with
             | Returned completion => Returned (strip w completion)
             | Raised e =>
                 match caught_as AnthropicException e with
                 | Some s => Returned ("Anthropic Client Error: " +:+ s)
                 | None => Raised e
                 end
             end, bucket,
             [Enter_complete_anthropic_text;
              Anthropic_request prompt [HUMAN_PROMPT w] model max_tokens])
        end
    end.
Proof.
  run. simpl.
  destruct (getitem _ _) as [api_key|e]; simpl.
  - destruct (format_anthropic_prompt w messages) as [prompt|e]; simpl.
    + destruct (completions_create _ _ _ _ _ _) as [completion|e]; simpl;
        [done|]. by destruct (caught_as AnthropicException e).
    + by destruct (caught_as AnthropicException e).
  - by destruct (caught_as AnthropicException e).
Qed.

End AnthropicPath.

(** X5.  The Anthropic path from end to end.  With the Anthropic vendor
    tag, a max_tokens that passes validation, a limiter that lets the call
    through, the API key in the environment and messages that have their
    keys, [complete_text] sends exactly one request: its prompt is the
    concatenation of the messages' contributions, its only stop sequence
    the human marker, its model and token budget those of the call; and
    the answer's completion comes back stripped.  The bucket is as the
    limiter left it. *)
Theorem complete_text_anthropic_success (w : World) (max_tokens : Z)
    (model vendor : string) (messages : list (gmap string string))
    (functions : option (list string))
    (callback : option (response → outcome string)) (bucket bucket' : state)
    (api_key completion : string) :
  vendor = ANTHROPIC_AI_VENDOR w →
  validate_max_tokens w max_tokens = Returned tt →
  limiter_ratelimit w bucket "complete_text" = (Returned tt, bucket') →
  environ w !! "ANTHROPIC_API_KEY" = Some api_key →
  Forall (λ m, well_keyed m = true) messages →
  completions_create w api_key (concat_all (contribution w <$> messages))
    [HUMAN_PROMPT w] model max_tokens = Returned completion →
  complete_text w max_tokens model vendor messages functions callback bucket
  = (Returned (strip w completion), bucket',
     [Validate max_tokens; RateLimit "complete_text";
      Enter_complete_anthropic_text;
      Anthropic_request (concat_all (contribution w <$> messages))
        [HUMAN_PROMPT w] model max_tokens]).
Proof.
  intros Hvendor Hv Hl Hkey Hkeys Hanswer.
  rewrite (complete_text_passed w _ _ _ _ _ _ _ _ Hv Hl).
  rewrite bool_decide_eq_true_2 by done.
  rewrite complete_anthropic_text_run. unfold getitem. rewrite Hkey.
  unfold format_anthropic_prompt.
  rewrite (format_loop_well_keyed w messages "" Hkeys), append_empty_l.
  by rewrite Hanswer.
Qed.

Lemma complete_text_anthropic_success_witness :
  complete_text world 100 "claude-2" "Anthropic"
    [message "user" "hi"; {[ "role" := "system" ]}] None None 4%N
  = (Returned "graph TD; A-->B", 5%N,
     [Validate 100; RateLimit "complete_text"; Enter_complete_anthropic_text;
      Anthropic_request
        (concat_all (contribution world
                       <$> [message "user" "hi"; {[ "role" := "system" ]}]))
        [HUMAN_PROMPT world] "claude-2" 100]).
Proof.
  apply (complete_text_anthropic_success world 100 "claude-2" "Anthropic"
           [message "user" "hi"; {[ "role" := "system" ]}] None None
           4%N 5%N "sk-ant-0" " graph TD; A-->B ").
  - reflexivity.
  - reflexivity.
  - reflexivity.
  - reflexivity.
  - repeat constructor.
  - reflexivity.
Defined.

(** X6.  No request leaves the Anthropic path unless the key is there and
    the prompt could be built.  On a call that got to the path, a missing
    ANTHROPIC_API_KEY makes [complete_text] raise KeyError for that name, and
    a message that lacks a key makes it raise KeyError for "role" or
    "content"; in both cases the path was entered and nothing was sent. *)
Theorem complete_text_anthropic_no_request (w : World) (max_tokens : Z)
    (model vendor : string) (messages : list (gmap string string))
    (functions : option (list string))
    (callback : option (response → outcome string))
    (bucket bucket' : state) :
  vendor = ANTHROPIC_AI_VENDOR w →
  validate_max_tokens w max_tokens = Returned tt →
  limiter_ratelimit w bucket "complete_text" = (Returned tt, bucket') →
  (environ w !! "ANTHROPIC_API_KEY" = None →
   complete_text w max_tokens model vendor messages functions callback bucket
   = (Raised (Exn KeyError "'ANTHROPIC_API_KEY'" None), bucket',
      [Validate max_tokens; RateLimit "complete_text";
       Enter_complete_anthropic_text]))
  ∧ (is_Some (environ w !! "ANTHROPIC_API_KEY") →
     Exists (λ m, well_keyed m = false) messages →
     ∃ key,
       (key = "role" ∨ key = "content")
       ∧ complete_text w max_tokens model vendor messages functions callback
           bucket
         = (Raised (Exn KeyError (repr key) None), bucket',
            [Validate max_tokens; RateLimit "complete_text";
             Enter_complete_anthropic_text])).
Proof.
  intros Hvendor Hv Hl.
  rewrite (complete_text_passed w _ _ _ _ _ _ _ _ Hv Hl).
  rewrite bool_decide_eq_true_2 by done.
  rewrite complete_anthropic_text_run. unfold getitem. split.
  - by intros ->.
  - intros [api_key ->] Hbad.
    destruct (format_loop_ill_keyed w messages "" Hbad) as (key & Hkey & Hraise).
    exists key. split; [done|]. unfold format_anthropic_prompt.
    by rewrite Hraise.
Qed.

Lemma complete_text_anthropic_no_request_witness :
  complete_text
    (world_with (Returned {| is_OpenAIObject := true; body := "" |}) ∅)
    100 "claude-2" "Anthropic" [message "user" "hi"] None None 4%N
  = (Raised (Exn KeyError "'ANTHROPIC_API_KEY'" None), 5%N,
     [Validate 100; RateLimit "complete_text";
      Enter_complete_anthropic_text])
  ∧ ∃ key,
      (key = "role" ∨ key = "content")
      ∧ complete_text world 100 "claude-2" "Anthropic"
          [message "user" "hi"; {[ "role" := "user" ]}] None None 4%N
        = (Raised (Exn KeyError (repr key) None), 5%N,
           [Validate 100; RateLimit "complete_text";
            Enter_complete_anthropic_text]).
Proof.
  split.
  - apply (proj1 (complete_text_anthropic_no_request
             (world_with (Returned {| is_OpenAIObject := true; body := "" |})
                ∅)
             100 "claude-2" "Anthropic" [message "user" "hi"] None None
             4%N 5%N eq_refl eq_refl eq_refl)).
    reflexivity.
  - apply (proj2 (complete_text_anthropic_no_request world 100 "claude-2"
             "Anthropic" [message "user" "hi"; {[ "role" := "user" ]}]
             None None 4%N 5%N eq_refl eq_refl eq_refl)).
    + by eexists.
    + apply Exists_cons_tl, Exists_cons_hd. reflexivity.
Defined.

(** X7.  An error of the Anthropic client, on a call that got as far as the
    request: an AnthropicException comes back as the text "Anthropic Client
    Error: ...", an LLMException as "Error completing text: ...", and an
    exception of any other class, those of the anthropic package among them,
    is raised to the caller as it is. *)
Theorem complete_text_anthropic_client_error (w : World) (max_tokens : Z)
    (model vendor : string) (messages : list (gmap string string))
    (functions : option (list string))
    (callback : option (response → outcome string)) (bucket bucket' : state)
    (api_key prompt : string) (e : exn) :
  vendor = ANTHROPIC_AI_VENDOR w →
  validate_max_tokens w max_tokens = Returned tt →
  limiter_ratelimit w bucket "complete_text" = (Returned tt, bucket') →
  environ w !! "ANTHROPIC_API_KEY" = Some api_key →
  format_anthropic_prompt w messages = Returned prompt →
  completions_create w api_key prompt [HUMAN_PROMPT w] model max_tokens
  = Raised e →
  (complete_text w max_tokens model vendor messages functions callback
     bucket).1.1
  = match caught_as AnthropicException e with
    | Some s => Returned ("Anthropic Client Error: " +:+ s)
    | None =>
        match caught_as LLMException e with
        | Some s => Returned ("Error completing text: " +:+ s)
        | None => Raised e
        end
    end.
Proof.
  intros Hvendor Hv Hl Hkey Hprompt Herror.
  rewrite (complete_text_passed w _ _ _ _ _ _ _ _ Hv Hl).
  rewrite bool_decide_eq_true_2 by done.
  rewrite complete_anthropic_text_run. unfold getitem.
  rewrite Hkey, Hprompt, Herror.
  destruct (caught_as AnthropicException e); [done|].
  by destruct (caught_as LLMException e).
Qed.


Lemma complete_text_anthropic_client_error_witness :
  (complete_text
     (world_anthropic_raising
        (Exn (OtherException "anthropic.APIStatusError") "overloaded" None))
     100 "claude-2" "Anthropic" [message "user" "hi"] None None 4%N).1.1
  = Raised (Exn (OtherException "anthropic.APIStatusError") "overloaded" None).
Proof.
  apply (complete_text_anthropic_client_error
           (world_anthropic_raising
              (Exn (OtherException "anthropic.APIStatusError") "overloaded"
                 None))
           100 "claude-2" "Anthropic" [message "user" "hi"] None None
           4%N 5%N "sk-ant-0"
           (HUMAN_PROMPT world +:+ " hi")
           (Exn (OtherException "anthropic.APIStatusError") "overloaded"
              None));
    reflexivity.
Defined.

(** *** The OpenAI path, from [complete_text] down *)

Section OpenAIPath.
Context (w : World).
Implicit Types (max_tokens : Z) (model vendor : string)
  (messages : list (gmap string string)) (functions : option (list string))
  (callback : option (response → outcome string)) (bucket : state).

Lemma complete_openai_text_run max_tokens model messages functions callback
    bucket :
  complete_openai_text w max_tokens model messages functions callback bucket
  = let request :=
      OpenAI_request model max_tokens messages functions "auto" in
    match ChatCompletion_create w model max_tokens messages functions
            "auto" with
    | Raised e =>
        (openai_handled e, bucket, [Enter_complete_openai_text; request])
    | Returned raw =>
        if is_OpenAIObject raw then
          match callback with
          | Some cb =>
              (match cb raw with
               | Returned text => Returned text
               | Raised e => openai_handled e
               end, bucket,
               [Enter_complete_openai_text; request; Callback raw])
          | None =>
              (Returned
                 "Response doesn't have choices or choices have no text.",
               bucket, [Enter_complete_openai_text; request])
          end
        else
          (Returned "OpenAI Client Value error: Invalid Response", bucket,
           [Enter_complete_openai_text; request])
    end.
Proof.
  run. unfold openai_handled. simpl.
  destruct (ChatCompletion_create _ _ _ _ _ _) as [raw|e]; simpl.
  - destruct (is_OpenAIObject raw); simpl; [|done].
    destruct callback as [cb|]; simpl; [|done].
    destruct (cb raw) as [text|e]; simpl; [done|].
    by destruct (caught_as OpenAIError e), (caught_as ValueError e),
      (caught_as OpenAIException e).
  - by destruct (caught_as OpenAIError e), (caught_as ValueError e),
      (caught_as OpenAIException e).
Qed.

End OpenAIPath.

(** X8.  An exception of the callback is handled like one of the client,
    the callback being called inside the [try]: an openai.OpenAIError, a
    ValueError (a UnicodeDecodeError is one) or an OpenAIException comes
    back as the text of its clause, an LLMException as "Error completing
    text: ...", and any other exception is raised to the caller. *)
Theorem complete_text_callback_error (w : World) (max_tokens : Z)
    (model vendor : string) (messages : list (gmap string string))
    (functions : option (list string)) (cb : response → outcome string)
    (bucket bucket' : state) (raw : response) (e : exn) :
  vendor ≠ ANTHROPIC_AI_VENDOR w →
  validate_max_tokens w max_tokens = Returned tt →
  limiter_ratelimit w bucket "complete_text" = (Returned tt, bucket') →
  ChatCompletion_create w model max_tokens messages functions "auto"
  = Returned raw →
  is_OpenAIObject raw = true →
  cb raw = Raised e →
  (complete_text w max_tokens model vendor messages functions (Some cb)
     bucket).1.1
  = match caught_as OpenAIError e with
    | Some s => Returned ("OpenAI Client Error: " +:+ s)
    | None =>
    match caught_as ValueError e with
    | Some s => Returned ("OpenAI Client Value error: " +:+ s)
    | None =>
    match caught_as OpenAIException e with
    | Some s => Returned ("complete_openai_text Exception: " +:+ s)
    | None =>
    match caught_as LLMException e with
    | Some s => Returned ("Error completing text: " +:+ s)
    | None => Raised e
    end end end end.
Proof.
  intros Hvendor Hv Hl Hcreate Hobject Hcb.
  rewrite (complete_text_passed w _ _ _ _ _ _ _ _ Hv Hl).
  rewrite bool_decide_eq_false_2 by done.
  rewrite complete_openai_text_run. simpl.
  rewrite Hcreate, Hobject, Hcb. unfold openai_handled.
  destruct (caught_as OpenAIError e); [done|].
  destruct (caught_as ValueError e); [done|].
  destruct (caught_as OpenAIException e); [done|].
  by destruct (caught_as LLMException e).
Qed.

Lemma complete_text_callback_error_witness :
  (complete_text
     (world_with (Returned {| is_OpenAIObject := true; body := byte_ff |})
        ∅)
     100 "gpt-4" "OpenAI" [message "user" "hi"] None (Some decode_body)
     4%N).1.1
  = Returned "OpenAI Client Value error: 'utf-8' codec can't decode bytes".
Proof.
  apply (complete_text_callback_error
           (world_with
              (Returned {| is_OpenAIObject := true; body := byte_ff |}) ∅)
           100 "gpt-4" "OpenAI" [message "user" "hi"] None decode_body
           4%N 5%N {| is_OpenAIObject := true; body := byte_ff |}
           (Exn UnicodeDecodeError "'utf-8' codec can't decode bytes" None));
    try reflexivity.
  discriminate.
Defined.

(** X9.  The OpenAI path sends its request once and never again, whatever
    comes back; it calls the callback at most once, and only with an answer
    that is an OpenAIObject; and it leaves the limiter's bucket alone. *)
Theorem complete_openai_text_one_request (w : World) (max_tokens : Z)
    (model : string) (messages : list (gmap string string))
    (functions : option (list string))
    (callback : option (response → outcome string)) (bucket : state) :
  let x := complete_openai_text w max_tokens model messages functions
             callback bucket in
  x.1.2 = bucket
  ∧ ∃ tail,
      x.2 = [Enter_complete_openai_text;
             OpenAI_request model max_tokens messages functions "auto"]
            ++ tail
      ∧ (tail = []
         ∨ ∃ raw,
             tail = [Callback raw]
             ∧ ChatCompletion_create w model max_tokens messages functions
                 "auto" = Returned raw
             ∧ is_OpenAIObject raw = true
             ∧ is_Some callback).
Proof.
  intros x. subst x. rewrite complete_openai_text_run. simpl.
  destruct (ChatCompletion_create _ _ _ _ _ _) as [raw|e] eqn:Hcreate.
  - destruct (is_OpenAIObject raw) eqn:Hobject.
    + destruct callback as [cb|]; simpl.
      * split; [done|]. exists [Callback raw]. split; [done|]. right.
        exists raw. by eauto.
      * split; [done|]. exists []. by split; [|left].
    + simpl. split; [done|]. exists []. by split; [|left].
  - simpl. split; [done|]. exists []. by split; [|left].
Qed.

(** *** The dispatcher and the limiter *)

(** X10.  A limiter that raises ends a call that passed validation before
    either vendor path is entered: an LLMException comes back as the text
    "Error completing text: ...", any other exception is raised to the
    caller; the bucket is as the limiter left it. *)
Theorem complete_text_limiter_raises (w : World) (max_tokens : Z)
    (model vendor : string) (messages : list (gmap string string))
    (functions : option (list string))
    (callback : option (response → outcome string)) (bucket bucket' : state)
    (e : exn) :
  validate_max_tokens w max_tokens = Returned tt →
  limiter_ratelimit w bucket "complete_text" = (Raised e, bucket') →
  complete_text w max_tokens model vendor messages functions callback bucket
  = (match caught_as LLMException e with
     | Some s => Returned ("Error completing text: " +:+ s)
     | None => Raised e
     end, bucket', [Validate max_tokens; RateLimit "complete_text"]).
Proof.
  intros Hv Hl. run. rewrite Hv, Hl.
  by destruct (caught_as LLMException e).
Qed.

Lemma complete_text_limiter_raises_witness :
  complete_text
    (world_limiter_raising
       (Exn (OtherException "BucketFullException") "bucket full" None))
    100 "gpt-4" "OpenAI" [message "user" "hi"] None None 60%N
  = (Raised (Exn (OtherException "BucketFullException") "bucket full" None),
     60%N, [Validate 100; RateLimit "complete_text"])
  ∧ complete_text
      (world_limiter_raising (Exn LLMException "slow down" None))
      100 "claude-2" "Anthropic" [message "user" "hi"] None None 60%N
    = (Returned "Error completing text: slow down", 60%N,
       [Validate 100; RateLimit "complete_text"]).
Proof.
  split.
  - apply (complete_text_limiter_raises
             (world_limiter_raising
                (Exn (OtherException "BucketFullException") "bucket full"
                   None))
             100 "gpt-4" "OpenAI" [message "user" "hi"] None None 60%N 60%N
             (Exn (OtherException "BucketFullException") "bucket full" None));
      reflexivity.
  - apply (complete_text_limiter_raises
             (world_limiter_raising (Exn LLMException "slow down" None))
             100 "claude-2" "Anthropic" [message "user" "hi"] None None
             60%N 60%N (Exn LLMException "slow down" None));
      reflexivity.
Defined.

(** X11.  The only thing [complete_text] does to the shared limiter is its
    one call of [ratelimit]: after a rejected max_tokens the bucket is
    untouched, and after any other call it is exactly as that call of the
    limiter left it, whichever path ran and however it ended. *)
Theorem complete_text_bucket (w : World) (max_tokens : Z)
    (model vendor : string) (messages : list (gmap string string))
    (functions : option (list string))
    (callback : option (response → outcome string)) (bucket : state) :
  (complete_text w max_tokens model vendor messages functions callback
     bucket).1.2
  = match validate_max_tokens w max_tokens with
    | Raised _ => bucket
    | Returned _ => (limiter_ratelimit w bucket "complete_text").2
    end.
Proof.
  destruct (validate_max_tokens w max_tokens) as [[]|e] eqn:Hv.
  2:{ by rewrite (complete_text_rejected w _ _ _ _ _ _ _ _ Hv). }
  destruct (limiter_ratelimit w bucket "complete_text")
    as [[[]|e] bucket'] eqn:Hl; simpl.
  2:{ run. rewrite Hv, Hl. by destruct (caught_as LLMException e). }
  rewrite (complete_text_passed w _ _ _ _ _ _ _ _ Hv Hl).
  destruct (bool_decide (vendor = ANTHROPIC_AI_VENDOR w)).
  - rewrite complete_anthropic_text_run.
    destruct (getitem _ _) as [api_key|e]; simpl.
    + destruct (format_anthropic_prompt w messages) as [prompt|e]; simpl.
      * destruct (completions_create _ _ _ _ _ _) as [completion|e];
          simpl; [done|].
        destruct (caught_as AnthropicException e); simpl; [done|].
        by destruct (caught_as LLMException e).
      * destruct (caught_as AnthropicException e); simpl; [done|].
        by destruct (caught_as LLMException e).
    + destruct (caught_as AnthropicException e); simpl; [done|].
      by destruct (caught_as LLMException e).
  - pose proof (complete_openai_text_run w max_tokens model messages
                  functions callback bucket') as Hrun.
    destruct (complete_openai_text _ _ _ _ _ _ _) as [[r σ] evs].
    assert (σ = bucket') as ->.
    { simpl in Hrun.
      destruct (ChatCompletion_create _ _ _ _ _ _) as [raw|e];
        [destruct (is_OpenAIObject raw); [destruct callback|]|];
        by injection Hrun. }
    destruct r as [text|e]; [done|].
    by destruct (caught_as LLMException e).
Qed.

(** X12.  The OpenAI path from end to end.  With any vendor tag but the
    Anthropic one, a max_tokens that passes validation and a limiter that
    lets the call through, an answer that is an OpenAIObject goes to the
    callback and [complete_text] returns the callback's text; without a
    callback it returns the fixed sentence.  One request has been sent, with
    the model, budget, messages and functions of the call and
    function_call "auto". *)
Theorem complete_text_openai_success (w : World) (max_tokens : Z)
    (model vendor : string) (messages : list (gmap string string))
    (functions : option (list string))
    (callback : option (response → outcome string)) (bucket bucket' : state)
    (raw : response) :
  vendor ≠ ANTHROPIC_AI_VENDOR w →
  validate_max_tokens w max_tokens = Returned tt →
  limiter_ratelimit w bucket "complete_text" = (Returned tt, bucket') →
  ChatCompletion_create w model max_tokens messages functions "auto"
  = Returned raw →
  is_OpenAIObject raw = true →
  let sent := [Validate max_tokens; RateLimit "complete_text";
               Enter_complete_openai_text;
               OpenAI_request model max_tokens messages functions "auto"] in
  (∀ cb text,
     callback = Some cb → cb raw = Returned text →
     complete_text w max_tokens model vendor messages functions callback
       bucket
     = (Returned text, bucket', sent ++ [Callback raw]))
  ∧ (callback = None →
     complete_text w max_tokens model vendor messages functions callback
       bucket
     = (Returned "Response doesn't have choices or choices have no text.",
        bucket', sent)).
Proof.
  intros Hvendor Hv Hl Hcreate Hobject sent.
  rewrite (complete_text_passed w _ _ _ _ _ _ _ _ Hv Hl).
  rewrite bool_decide_eq_false_2 by done.
  rewrite complete_openai_text_run. simpl. rewrite Hcreate, Hobject.
  split.
  - intros cb text -> Hcb. by rewrite Hcb.
  - by intros ->.
Qed.

Lemma complete_text_openai_success_witness :
  complete_text world 100 "gpt-4" "OpenAI" [message "user" "hi"]
    (Some ["render_diagram"]) (Some body_of) 4%N
  = (Returned "flowchart", 5%N,
     [Validate 100; RateLimit "complete_text"; Enter_complete_openai_text;
      OpenAI_request "gpt-4" 100 [message "user" "hi"]
        (Some ["render_diagram"]) "auto"]
     ++ [Callback {| is_OpenAIObject := true; body := "flowchart" |}]).
Proof.
  apply (proj1 (complete_text_openai_success world 100 "gpt-4" "OpenAI"
           [message "user" "hi"] (Some ["render_diagram"]) (Some body_of)
           4%N 5%N {| is_OpenAIObject := true; body := "flowchart" |}
           ltac:(discriminate) eq_refl eq_refl eq_refl eq_refl)
           body_of "flowchart" eq_refl eq_refl).
Defined.

(** X13.  Messages of other roles can be taken out without a trace: for
    messages that have their keys, the prompt of the whole conversation is
    the prompt of its "user" and "assistant" messages alone. *)
Theorem format_anthropic_prompt_drops_roles (w : World)
    (messages : list (gmap string string)) :
  Forall (λ m, well_keyed m = true) messages →
  format_anthropic_prompt w (filter (λ m, speaks m = true) messages)
  = format_anthropic_prompt w messages.
Proof.
  intros Hkeys. unfold format_anthropic_prompt.
  rewrite (format_loop_well_keyed w messages "" Hkeys).
  rewrite format_loop_well_keyed.
  2:{ apply Forall_forall. intros m [_ Hm]%list_elem_of_filter.
      rewrite Forall_forall in Hkeys. by apply Hkeys. }
  do 2 f_equal. clear Hkeys. unfold concat_all.
  induction messages as [|m rest IH]; [done|].
  destruct (decide (speaks m = true)) as [Hm|Hm].
  - rewrite filter_cons_True by done. rewrite !fmap_cons. simpl.
    by rewrite IH.
  - rewrite filter_cons_False by done. rewrite fmap_cons. simpl.
    rewrite <- IH.
    replace (contribution w m) with "" ; [done|].
    unfold contribution, speaks in *.
    destruct (m !! "role") as [role|]; [|done].
    destruct (bool_decide (role = "user")); [done|].
    by destruct (bool_decide (role = "assistant")).
Qed.

Lemma format_anthropic_prompt_drops_roles_witness :
  format_anthropic_prompt world
    (filter (λ m, speaks m = true)
       [{[ "role" := "system" ]}; message "user" "hi";
        message "tool" "42"; message "assistant" "hello"])
  = format_anthropic_prompt world
      [{[ "role" := "system" ]}; message "user" "hi";
       message "tool" "42"; message "assistant" "hello"].
Proof.
  apply (format_anthropic_prompt_drops_roles world).
  repeat constructor.
Defined.


End LLMServiceFurther.

(** ** Further properties of mermaid_service.py *)

Module MermaidServiceFurther.
Import MermaidService Statements Examples Further MermaidServiceProperties.

(** *** What a computation keeps *)

Section Preserves.
Context (h : Host) (I : os_state → Prop).

Lemma preserves_bind {A B} (m : M os_state event A)
    (f : A → M os_state event B) :
  preserves I m → (∀ a, preserves I (f a)) → preserves I (m ≫= f).
Proof.
  intros Hm Hf σ Hσ. specialize (Hm σ Hσ). rewrite bind_run.
  destruct (m σ) as [[[a|e] σ1] evs1]; simpl in *; [|done].
  specialize (Hf a σ1 Hm). by destruct (f a σ1) as [[r σ2] evs2].
Qed.

Lemma preserves_try_except {A} (m : M os_state event A)
    (handler : exn → M os_state event A) :
  preserves I m → (∀ e, preserves I (handler e)) →
  preserves I (try_except m handler).
Proof.
  intros Hm Hh σ Hσ. specialize (Hm σ Hσ). unfold try_except.
  destruct (m σ) as [[[a|e] σ1] evs1]; simpl in *; [done|].
  specialize (Hh e σ1 Hm). by destruct (handler e σ1) as [[r σ2] evs2].
Qed.

Lemma preserves_exit_after {A} f (body : M os_state event A) :
  preserves I body → preserves I (close h f) →
  preserves I (exit_after h f body).
Proof.
  intros Hbody Hclose σ Hσ. specialize (Hbody σ Hσ). unfold exit_after.
  destruct (body σ) as [[r σ1] evs1]. simpl in *.
  specialize (Hclose σ1 Hbody).
  by destruct (close h f σ1) as [[[[]|e] σ2] evs2].
Qed.

Lemma preserves_still {A} (m : M os_state event A) :
  (∀ σ, (m σ).1.2 = σ) → preserves I m.
Proof. intros Hm σ Hσ. by rewrite Hm. Qed.

Lemma preserves_report e : preserves I (report e).
Proof.
  apply preserves_still. intros σ.
  by destruct (report_run e σ) as (e' & evs & -> & _).
Qed.

(** The block under the [with], given its three state-changing steps. *)
Lemma preserves_render script temp_in temp_out :
  (∀ data, preserves I (write h temp_in data)) →
  preserves I (close h temp_in) →
  preserves I (close h temp_out) →
  (∀ argv, preserves I (subprocess_run h argv true)) →
  preserves I (render h script temp_in temp_out).
Proof.
  intros Hwrite Hclose_in Hclose_out Hrun. unfold render.
  apply preserves_bind; [done|]. intros _.
  apply preserves_bind; [done|]. intros _.
  apply preserves_bind; [done|]. intros _.
  apply preserves_bind; [done|]. intros process.
  apply preserves_bind; [by apply preserves_still|]. intros out.
  apply preserves_bind; [by apply preserves_still|]. intros _.
  apply preserves_bind; [by apply preserves_still|]. intros err.
  apply preserves_bind; [by apply preserves_still|]. intros _.
  by apply preserves_still.
Qed.

End Preserves.

(** *** Files that were there before the call *)

Section HoldsFile.
Context (h : Host) (p c : string).
Hypothesis child_keeps :
  ∀ argv fs, fs !! p = Some c → (child h argv fs).2 !! p = Some c.

Lemma holds_file_NamedTemporaryFile delete suffix :
  preserves (holds_file p c) (NamedTemporaryFile h delete suffix).
Proof.
  intros σ [Hfile Hclosed].
  destruct (NamedTemporaryFile_run h delete suffix σ)
    as [[e ->]|(n & Hfresh & ->)]; [done|]. simpl.
  assert (n ≠ p) by congruence.
  unfold holds_file. simpl. split; by rewrite lookup_insert_ne.
Qed.

Lemma holds_file_write f data : preserves (holds_file p c) (write h f data).
Proof.
  intros σ [Hfile Hclosed]. unfold write.
  destruct (buffers σ !! name f) as [buf|] eqn:Hbuf; [|done].
  destruct (io_fault h _ _); [done|]. simpl.
  assert (name f ≠ p) by congruence.
  unfold holds_file. simpl. split; [done | by rewrite lookup_insert_ne].
Qed.

Lemma holds_file_close f : preserves (holds_file p c) (close h f).
Proof.
  intros σ [Hfile Hclosed]. unfold close.
  destruct (buffers σ !! name f) as [buf|] eqn:Hbuf; [|done].
  assert (name f ≠ p) by congruence.
  assert (Hkept : (if delete_flag f
                   then delete (name f)
                          (match io_fault h (Op_close (name f)) (files σ) with
                           | Some _ => files σ
                           | None => alter (λ old, old +:+ buf) (name f)
                                       (files σ)
                           end)
                   else match io_fault h (Op_close (name f)) (files σ) with
                        | Some _ => files σ
                        | None => alter (λ old, old +:+ buf) (name f)
                                    (files σ)
                        end) !! p = Some c).
  { destruct (delete_flag f), (io_fault h _ _);
      rewrite ?lookup_delete_ne, ?lookup_alter_ne by done; done. }
  unfold holds_file.
  destruct (io_fault h _ _); simpl;
    (split; [done | by rewrite lookup_delete_ne]).
Qed.

Lemma holds_file_subprocess_run argv check :
  preserves (holds_file p c) (subprocess_run h argv check).
Proof.
  intros σ [Hfile Hclosed]. unfold subprocess_run.
  pose proof (child_keeps argv (files σ) Hfile) as Hkept.
  destruct (child h argv (files σ)) as [[[[code out] err]|e] fs'];
    simpl in *; [|done].
  by destruct (check && negb (code =? 0)%Z).
Qed.

Lemma holds_file_with {A} delete suffix
    (body : tmpfile → M os_state event A) :
  (∀ f, preserves (holds_file p c) (body f)) →
  preserves (holds_file p c)
    (with_ h (NamedTemporaryFile h delete suffix) body).
Proof.
  intros Hbody. unfold with_.
  apply preserves_bind; [apply holds_file_NamedTemporaryFile|]. intros f.
  apply preserves_exit_after; [done | apply holds_file_close].
Qed.

Lemma holds_file_create_mermaid_diagram script :
  preserves (holds_file p c) (create_mermaid_diagram h script).
Proof.
  unfold create_mermaid_diagram.
  apply preserves_try_except; [|intros e; apply preserves_report].
  apply holds_file_with. intros temp_in.
  apply holds_file_with. intros temp_out.
  apply preserves_render.
  - intros data. apply holds_file_write.
  - apply holds_file_close.
  - apply holds_file_close.
  - intros argv. apply holds_file_subprocess_run.
Qed.

End HoldsFile.

(** X20.  [create_mermaid_diagram] itself never changes or removes a file
    that was there before the call: a file that is not one of the open
    temporary files, and that the renderer leaves as it is, holds after the
    call what it held before, on every path. *)
Theorem create_mermaid_diagram_keeps_files (h : Host) (script : MermaidScript)
    (σ : os_state) (p c : string) :
  files σ !! p = Some c →
  buffers σ !! p = None →
  (∀ argv fs, fs !! p = Some c → (child h argv fs).2 !! p = Some c) →
  files (create_mermaid_diagram h script σ).1.2 !! p = Some c.
Proof.
  intros Hfile Hclosed Hchild.
  by apply (holds_file_create_mermaid_diagram h p c Hchild script σ).
Qed.

Lemma create_mermaid_diagram_keeps_files_witness :
  files (create_mermaid_diagram (host false 1 "" "parse error")
           {| mermaid_script := "graph TD; A-->" |} disc).1.2
    !! "/tmp/tmpk3x0.mmd"
  = Some "graph LR".
Proof.
  apply (create_mermaid_diagram_keeps_files (host false 1 "" "parse error")
           {| mermaid_script := "graph TD; A-->" |} disc
           "/tmp/tmpk3x0.mmd" "graph LR").
  - reflexivity.
  - reflexivity.
  - intros argv fs Hfs. simpl. by repeat case_match.
Defined.

(** *** Files that are open *)

Section OpenWithin.
Context (h : Host).

Lemma close_buffers f σ :
  buffers (close h f σ).1.2 = delete (name f) (buffers σ).
Proof.
  unfold close. destruct (buffers σ !! name f) as [buf|] eqn:Hbuf.
  - by destruct (io_fault h _ _).
  - simpl. symmetry. by apply delete_id.
Qed.

Lemma open_within_write D f data :
  preserves (open_within D) (write h f data).
Proof.
  intros σ Hσ. unfold write.
  destruct (buffers σ !! name f) as [buf|] eqn:Hbuf; [|done].
  destruct (io_fault h _ _); [done|]. unfold open_within in *. simpl.
  intros k [->%elem_of_singleton|Hk]%dom_insert%elem_of_union.
  - apply Hσ. by apply elem_of_dom_2 in Hbuf.
  - by apply Hσ.
Qed.

Lemma open_within_close D f : preserves (open_within D) (close h f).
Proof.
  intros σ Hσ. unfold open_within in *. rewrite close_buffers.
  intros k [Hk _]%dom_delete%elem_of_difference. by apply Hσ.
Qed.

Lemma open_within_subprocess_run D argv check :
  preserves (open_within D) (subprocess_run h argv check).
Proof.
  intros σ Hσ. unfold subprocess_run.
  destruct (child h argv (files σ)) as [[[[code out] err]|e] fs'];
    simpl; [|done].
  by destruct (check && negb (code =? 0)%Z).
Qed.

(** A [with] item opens one file more and closes it on the way out. *)
Lemma open_within_with {A} D delete suffix
    (body : tmpfile → M os_state event A) :
  (∀ D' f, preserves (open_within D') (body f)) →
  preserves (open_within D)
    (with_ h (NamedTemporaryFile h delete suffix) body).
Proof.
  intros Hbody σ Hσ. unfold with_. rewrite bind_run.
  destruct (NamedTemporaryFile_run h delete suffix σ)
    as [[e ->]|(n & Hfresh & ->)]; [done|].
  set (f := {| name := n; delete_flag := delete |}).
  set (σ1 := {| files := _; buffers := _ |}).
  assert (Hσ1 : open_within (D ∪ {[n]}) σ1).
  { unfold open_within in *. subst σ1. simpl.
    intros k [Hk|Hk]%dom_insert%elem_of_union; apply elem_of_union;
      [by right | left; by apply Hσ]. }
  pose proof (Hbody _ f σ1 Hσ1) as Hσ2.
  unfold exit_after. destruct (body f σ1) as [[r σ2] evs1]. simpl in Hσ2.
  pose proof (close_buffers f σ2) as Hclose.
  assert (open_within D (close h f σ2).1.2).
  { unfold open_within in *. rewrite Hclose. subst f. simpl.
    intros k [Hk Hne]%dom_delete%elem_of_difference.
    by apply Hσ2 in Hk as [Hk|Hk]%elem_of_union. }
  by destruct (close h f σ2) as [[[[]|e] σ3] evs2].
Qed.

Lemma open_within_create_mermaid_diagram D script :
  preserves (open_within D) (create_mermaid_diagram h script).
Proof.
  unfold create_mermaid_diagram.
  apply preserves_try_except; [|intros e; apply preserves_report].
  apply open_within_with. intros D1 temp_in.
  apply open_within_with. intros D2 temp_out.
  apply (preserves_render h).
  - intros data. apply open_within_write.
  - apply open_within_close.
  - apply open_within_close.
  - intros argv. apply open_within_subprocess_run.
Qed.

End OpenWithin.

(** X19.  Every temporary file the call opens it also closes, on every
    path: when [create_mermaid_diagram] has returned or raised, no file is
    open that was not open before the call. *)
Theorem create_mermaid_diagram_closes_files (h : Host) (script : MermaidScript)
    (σ : os_state) :
  dom (buffers (create_mermaid_diagram h script σ).1.2) ⊆ dom (buffers σ).
Proof.
  apply (open_within_create_mermaid_diagram h (dom (buffers σ)) script σ).
  by unfold open_within.
Qed.


(** *** How a run ends *)

Lemma decode_ascii (b : string) : is_ascii b = true → decode b = Returned b.
Proof.
  unfold is_ascii, decode. intros Hascii.
  replace (utf8_wf (byte_values b)) with true; [done|]. symmetry.
  induction (byte_values b) as [|v rest IH]; [done|].
  simpl in Hascii. apply andb_true_iff in Hascii as [Hv Hrest].
  simpl. rewrite Hv. by apply IH.
Qed.

Lemma report_Exn cls message cause σ :
  (report (Exn cls message cause) σ).1.1
  = if issubclass cls Exception then
      Raised (Exn MermaidUnexpectedError
                ("Unexpected error occurred: " +:+ message)
                (Some (Exn cls message cause)))
    else Raised (Exn cls message cause).
Proof. unfold report. by destruct (issubclass cls Exception). Qed.

Lemma report_leaves e σ :
  ∃ e', (report e σ).1.1 = Raised e' ∧ leaves_renderer e' = true.
Proof.
  destruct e as [cls message cause|code cmd out err].
  - rewrite report_Exn. destruct (issubclass cls Exception) eqn:Hcls.
    + by eexists.
    + eexists. split; [done|]. simpl. rewrite Hcls. by rewrite orb_true_r.
  - unfold report, decode. run. simpl.
    destruct (utf8_wf (byte_values err)); simpl; by eexists.
Qed.

Lemma report_not_returned e σ response :
  Returned response ≠ (report e σ).1.1.
Proof. destruct (report_leaves e σ) as (e' & -> & _). done. Qed.

(** X14.  A response is returned only after a renderer that ended with exit
    code 0 and whose output decoded: when [create_mermaid_diagram] returns,
    it has started the child on its two temporary files, the child ended
    with code 0, the response is the SVG response on the output file, and
    the file system is the one the child left. *)
Theorem create_mermaid_diagram_returned (h : Host) (script : MermaidScript)
    (σ : os_state) (response : FileResponse) :
  let x := create_mermaid_diagram h script σ in
  x.1.1 = Returned response →
  ∃ temp_in temp_out fs bufs out err fs',
    Spawned ["mmdc"; "-i"; temp_in; "-o"; temp_out] fs bufs
      (Returned (0%Z, out, err)) fs' ∈ x.2
    ∧ response = {| path := temp_out; media_type := "image/svg+xml" |}
    ∧ is_returned (decode out) = true
    ∧ is_returned (decode err) = true
    ∧ files x.1.2 = fs'.
Proof.
  intros x Hreturned. subst x.
  destruct (create_mermaid_diagram_run h script σ)
    as [[Hraised _]|(tin & tout & fs & bufs & Hrun & _ & _ & _ & _ & Hr)].
  { by rewrite Hreturned in Hraised. }
  rewrite Hreturned in Hr.
  destruct Hrun as ((post & Hevs & _) & _ & _ & _ & _ & _ & Hstate).
  set (argv := ["mmdc"; "-i"; tin; "-o"; tout]) in *.
  destruct (child h argv fs) as [result fs'] eqn:Hchild. simpl in *.
  destruct result as [[[code out] err]|e]; simpl in Hr.
  - destruct (code =? 0)%Z eqn:Hcode; simpl in Hr.
    + apply Z.eqb_eq in Hcode as ->.
      destruct (decode out) as [o|e] eqn:Hout; simpl in Hr.
      * destruct (decode err) as [e'|e] eqn:Herr; simpl in Hr.
        -- injection Hr as ->. exists tin, tout, fs, bufs, out, err, fs'.
           rewrite Hevs, Hout, Herr, Hstate. split; [|done].
           do 5 apply list_elem_of_further. apply list_elem_of_here.
        -- by apply (report_not_returned e) in Hr.
      * by apply (report_not_returned e) in Hr.
    + by apply (report_not_returned (CalledProcessError code argv out err))
        in Hr.
  - by apply (report_not_returned e) in Hr.
Qed.

Lemma create_mermaid_diagram_returned_witness :
  let x := create_mermaid_diagram
             (host false 0 "Generating single mermaid chart" "")
             {| mermaid_script := "graph TD; A-->B" |} disc in
  ∃ temp_in temp_out fs bufs out err fs',
    Spawned ["mmdc"; "-i"; temp_in; "-o"; temp_out] fs bufs
      (Returned (0%Z, out, err)) fs' ∈ x.2
    ∧ {| path := "/tmp/tmpk3x0.svg"; media_type := "image/svg+xml" |}
      = {| path := temp_out; media_type := "image/svg+xml" |}
    ∧ is_returned (decode out) = true
    ∧ is_returned (decode err) = true
    ∧ files x.1.2 = fs'.
Proof.
  apply (create_mermaid_diagram_returned
           (host false 0 "Generating single mermaid chart" "")
           {| mermaid_script := "graph TD; A-->B" |} disc
           {| path := "/tmp/tmpk3x0.svg"; media_type := "image/svg+xml" |}).
  reflexivity.
Defined.

(** X15.  A renderer that cannot be started (a missing binary, say) ends the
    call in the unexpected failure, whose message is "Unexpected error
    occurred: " and the text of the cause and whose cause is that
    exception; what is no [Exception] (a KeyboardInterrupt) passes through
    as it is. *)
Theorem create_mermaid_diagram_not_started (h : Host) (script : MermaidScript)
    (σ : os_state) (argv : list string) (fs bufs fs' : gmap string string)
    (cls : exn_class) (message : string) (cause : option exn) :
  let x := create_mermaid_diagram h script σ in
  Spawned argv fs bufs (Raised (Exn cls message cause)) fs' ∈ x.2 →
  x.1.1
  = if issubclass cls Exception then
      Raised (Exn MermaidUnexpectedError
                ("Unexpected error occurred: " +:+ message)
                (Some (Exn cls message cause)))
    else Raised (Exn cls message cause).
Proof.
  intros x Hin. subst x.
  destruct (create_mermaid_diagram_run h script σ)
    as [Hstop|(tin & tout & fs0 & bufs0 & Hrun & _ & _ & _ & _ & Hr)].
  { by apply (stopped_early_quiet _ _ Hstop) in Hin. }
  destruct (started_child_spawned _ _ _ _ _ _ _ _ _ _ _ _ _ Hrun Hin)
    as (-> & -> & -> & Hchild & _).
  rewrite Hchild in Hr. simpl in Hr. rewrite Hr. apply report_Exn.
Qed.

Lemma create_mermaid_diagram_not_started_witness :
  (create_mermaid_diagram missing_binary
     {| mermaid_script := "graph TD; A-->B" |} disc).1.1
  = Raised (Exn MermaidUnexpectedError
              "Unexpected error occurred: [Errno 2] No such file or directory: 'mmdc'"
              (Some (Exn FileNotFoundError
                       "[Errno 2] No such file or directory: 'mmdc'" None))).
Proof.
  apply (create_mermaid_diagram_not_started missing_binary
           {| mermaid_script := "graph TD; A-->B" |} disc
           ["mmdc"; "-i"; "/tmp/tmpq81z.mmd"; "-o"; "/tmp/tmpk3x0.svg"]
           (<["/tmp/tmpq81z.mmd" := "graph TD; A-->B"]>
              (<["/tmp/tmpk3x0.svg" := ""]> (files disc)))
           ∅
           (<["/tmp/tmpq81z.mmd" := "graph TD; A-->B"]>
              (<["/tmp/tmpk3x0.svg" := ""]> (files disc)))
           FileNotFoundError "[Errno 2] No such file or directory: 'mmdc'"
           None).
  vm_compute. do 5 apply list_elem_of_further. apply list_elem_of_here.
Defined.

(** X16.  Whatever goes wrong, only four kinds of exception leave
    [create_mermaid_diagram]: MermaidCliError, MermaidUnexpectedError, the
    UnicodeDecodeError of the first handler, and what is no [Exception] at
    all.  An OSError, a FileNotFoundError, a ValueError or the
    CalledProcessError itself never reaches the caller. *)
Theorem create_mermaid_diagram_raises (h : Host) (script : MermaidScript)
    (σ : os_state) (e : exn) :
  (create_mermaid_diagram h script σ).1.1 = Raised e →
  leaves_renderer e = true.
Proof.
  unfold create_mermaid_diagram, try_except.
  destruct (with_ h _ _ σ) as [[[response|e0] σ1] evs1]; [done|].
  destruct (report_leaves e0 σ1) as (e' & Hraise & Hleaves).
  destruct (report e0 σ1) as [[r σ2] evs2]. simpl in *.
  rewrite Hraise. by intros [= <-].
Qed.

Lemma create_mermaid_diagram_raises_witness :
  leaves_renderer
    (Exn MermaidUnexpectedError
       "Unexpected error occurred: [Errno 28] No space left on device"
       (Some (Exn OSError "[Errno 28] No space left on device" None)))
  = true.
Proof.
  apply (create_mermaid_diagram_raises (host true 0 "" "")
           {| mermaid_script := "graph TD; A-->B" |} disc).
  reflexivity.
Defined.


(** X21.  Once the child has ended the function touches nothing on disc: the
    call ends on exactly the file system the child left, with no temporary
    file open.  Nothing is cleaned up: when the child leaves the input file
    as it found it, the file still holds the script after the call, on
    success and on failure alike. *)
Theorem create_mermaid_diagram_leaves_files (h : Host) (script : MermaidScript)
    (σ : os_state) (temp_in temp_out : string)
    (fs bufs fs' : gmap string string)
    (result : outcome (Z * string * string)) :
  let x := create_mermaid_diagram h script σ in
  Spawned ["mmdc"; "-i"; temp_in; "-o"; temp_out] fs bufs result fs' ∈ x.2 →
  x.1.2 = {| files := fs'; buffers := bufs |}
  ∧ bufs !! temp_in = None
  ∧ bufs !! temp_out = None
  ∧ (fs' !! temp_in = fs !! temp_in →
     files x.1.2 !! temp_in = Some (encode (mermaid_script script))).
Proof.
  intros x Hin. subst x.
  destruct (create_mermaid_diagram_run h script σ)
    as [Hstop|(tin & tout & fs0 & bufs0 & Hrun & _)].
  { by apply (stopped_early_quiet _ _ Hstop) in Hin. }
  destruct (started_child_spawned _ _ _ _ _ _ _ _ _ _ _ _ _ Hrun Hin)
    as (Hargv & -> & -> & Hchild & _).
  injection Hargv as -> ->.
  destruct Hrun as (_ & _ & Hscript & _ & Hbin & Hbout & Hstate).
  rewrite Hchild in Hstate. simpl in Hstate. rewrite Hstate. simpl.
  do 3 (split; [done|]). intros Hkept. by rewrite Hkept.
Qed.

Lemma create_mermaid_diagram_leaves_files_witness :
  files (create_mermaid_diagram (host false 1 "" "parse error")
           {| mermaid_script := "graph TD; A-->" |} disc).1.2
    !! "/tmp/tmpq81z.mmd"
  = Some (encode "graph TD; A-->").
Proof.
  apply (create_mermaid_diagram_leaves_files (host false 1 "" "parse error")
           {| mermaid_script := "graph TD; A-->" |} disc
           "/tmp/tmpq81z.mmd" "/tmp/tmpk3x0.svg"
           (<["/tmp/tmpq81z.mmd" := "graph TD; A-->"]>
              (<["/tmp/tmpk3x0.svg" := ""]> (files disc)))
           ∅
           (<["/tmp/tmpq81z.mmd" := "graph TD; A-->"]>
              (<["/tmp/tmpk3x0.svg" := ""]> (files disc)))
           (Returned (1%Z, "", "parse error"))).
  - vm_compute. do 5 apply list_elem_of_further. apply list_elem_of_here.
  - reflexivity.
Defined.

(** X18.  For a renderer that writes plain ASCII to its standard streams
    there are two ways a run that started it can end, and the exit code
    alone decides: the SVG response on the output file for code 0, and for
    any other code MermaidCliError with the message "Mermaid CLI failed: "
    followed by the standard error, its cause the CalledProcessError. *)
Theorem create_mermaid_diagram_ascii_renderer (h : Host)
    (script : MermaidScript) (σ : os_state) (temp_in temp_out : string)
    (fs bufs fs' : gmap string string) (code : Z) (out err : string) :
  let x := create_mermaid_diagram h script σ in
  let argv := ["mmdc"; "-i"; temp_in; "-o"; temp_out] in
  Spawned argv fs bufs (Returned (code, out, err)) fs' ∈ x.2 →
  is_ascii out = true →
  is_ascii err = true →
  x.1.1
  = if (code =? 0)%Z then
      Returned {| path := temp_out; media_type := "image/svg+xml" |}
    else
      Raised (Exn MermaidCliError ("Mermaid CLI failed: " +:+ err)
                (Some (CalledProcessError code argv out err))).
Proof.
  intros x argv Hin Hout%decode_ascii Herr%decode_ascii. subst x argv.
  destruct (create_mermaid_diagram_run h script σ)
    as [Hstop|(tin & tout & fs0 & bufs0 & Hrun & _ & _ & _ & _ & Hr)].
  { by apply (stopped_early_quiet _ _ Hstop) in Hin. }
  destruct (started_child_spawned _ _ _ _ _ _ _ _ _ _ _ _ _ Hrun Hin)
    as (Hargv & -> & -> & Hchild & _).
  injection Hargv as -> ->.
  rewrite Hchild in Hr. simpl in Hr. rewrite Hr. unfold render_outcome.
  destruct (code =? 0)%Z; simpl.
  - by rewrite Hout, Herr.
  - unfold report. run. simpl. by rewrite Herr.
Qed.

Lemma create_mermaid_diagram_ascii_renderer_witness :
  (create_mermaid_diagram (host false 2 "" "Parse error on line 1")
     {| mermaid_script := "graph TD; A-->" |} disc).1.1
  = Raised (Exn MermaidCliError "Mermaid CLI failed: Parse error on line 1"
              (Some (CalledProcessError 2
                       ["mmdc"; "-i"; "/tmp/tmpq81z.mmd"; "-o";
                        "/tmp/tmpk3x0.svg"] "" "Parse error on line 1"))).
Proof.
  apply (create_mermaid_diagram_ascii_renderer
           (host false 2 "" "Parse error on line 1")
           {| mermaid_script := "graph TD; A-->" |} disc
           "/tmp/tmpq81z.mmd" "/tmp/tmpk3x0.svg"
           (<["/tmp/tmpq81z.mmd" := "graph TD; A-->"]>
              (<["/tmp/tmpk3x0.svg" := ""]> (files disc)))
           ∅
           (<["/tmp/tmpq81z.mmd" := "graph TD; A-->"]>
              (<["/tmp/tmpk3x0.svg" := ""]> (files disc)))
           2%Z "" "Parse error on line 1").
  - vm_compute. do 5 apply list_elem_of_further. apply list_elem_of_here.
  - reflexivity.
  - reflexivity.
Defined.

(** X17.  A renderer that ends with a non-zero exit code and whose
    standard error is UTF-8 text, ASCII or not: the call raises
    MermaidCliError, its message "Mermaid CLI failed: " followed by that
    text, its cause the CalledProcessError with the exit code, the command
    and the captured output. *)
Theorem create_mermaid_diagram_tool_failure (h : Host) (script : MermaidScript)
    (σ : os_state) (argv : list string) (fs bufs fs' : gmap string string)
    (code : Z) (out err text : string) :
  let x := create_mermaid_diagram h script σ in
  Spawned argv fs bufs (Returned (code, out, err)) fs' ∈ x.2 →
  code ≠ 0%Z →
  decode err = Returned text →
  x.1.1 = Raised (Exn MermaidCliError ("Mermaid CLI failed: " +:+ text)
                    (Some (CalledProcessError code argv out err))).
Proof.
  intros x Hin Hcode%Z.eqb_neq Herr. subst x.
  destruct (create_mermaid_diagram_run h script σ)
    as [Hstop|(tin & tout & fs0 & bufs0 & Hrun & _ & _ & _ & _ & Hr)].
  { by apply (stopped_early_quiet _ _ Hstop) in Hin. }
  destruct (started_child_spawned _ _ _ _ _ _ _ _ _ _ _ _ _ Hrun Hin)
    as (-> & -> & -> & Hchild & _).
  rewrite Hchild in Hr. simpl in Hr. rewrite Hr. unfold render_outcome.
  rewrite Hcode. simpl. unfold report. run. simpl. by rewrite Herr.
Qed.

Lemma create_mermaid_diagram_tool_failure_witness :
  (create_mermaid_diagram (host false 1 "" accented)
     {| mermaid_script := "graph TD; A-->" |} disc).1.1
  = Raised (Exn MermaidCliError ("Mermaid CLI failed: " +:+ accented)
              (Some (CalledProcessError 1
                       ["mmdc"; "-i"; "/tmp/tmpq81z.mmd"; "-o";
                        "/tmp/tmpk3x0.svg"] "" accented))).
Proof.
  apply (create_mermaid_diagram_tool_failure (host false 1 "" accented)
           {| mermaid_script := "graph TD; A-->" |} disc
           ["mmdc"; "-i"; "/tmp/tmpq81z.mmd"; "-o"; "/tmp/tmpk3x0.svg"]
           (<["/tmp/tmpq81z.mmd" := "graph TD; A-->"]>
              (<["/tmp/tmpk3x0.svg" := ""]> (files disc)))
           ∅
           (<["/tmp/tmpq81z.mmd" := "graph TD; A-->"]>
              (<["/tmp/tmpk3x0.svg" := ""]> (files disc)))
           1%Z "" accented accented).
  - vm_compute. do 5 apply list_elem_of_further. apply list_elem_of_here.
  - discriminate.
  - reflexivity.
Defined.

(** X22.  When the input file has been created and the output file cannot
    be, no renderer is started and the call raises; the input file that was
    just created stays on disc, empty and closed, and nothing else on disc
    has changed. *)
Theorem create_mermaid_diagram_output_not_created (h : Host)
    (script : MermaidScript) (σ σ1 : os_state) (temp_in : tmpfile)
    (evs1 : list event) (e : exn) :
  NamedTemporaryFile h false ".mmd" σ = (Returned temp_in, σ1, evs1) →
  (NamedTemporaryFile h false ".svg" σ1).1.1 = Raised e →
  let x := create_mermaid_diagram h script σ in
  is_returned x.1.1 = false
  ∧ children x.2 = []
  ∧ files σ !! name temp_in = None
  ∧ files x.1.2 = <[name temp_in := ""]> (files σ)
  ∧ buffers x.1.2 !! name temp_in = None.
Proof.
  intros Hfirst Hsecond x. subst x.
  destruct (NamedTemporaryFile_run h false ".mmd" σ)
    as [[e1 Hrun1]|(n1 & Hfresh & Hrun1)]; rewrite Hrun1 in Hfirst;
    [done|]. injection Hfirst as <- <- <-.
  destruct (NamedTemporaryFile_run h false ".svg"
              {| files := <[n1 := ""]> (files σ);
                 buffers := <[n1 := ""]> (buffers σ) |})
    as [[e2 Hrun2]|(n2 & _ & Hrun2)]; rewrite Hrun2 in Hsecond; [|done].
  clear Hsecond. simpl.
  set (f := {| name := n1; delete_flag := false |}).
  set (σ1 := {| files := <[n1 := ""]> (files σ); buffers := _ |}) in *.
  set (σ2 := {| files := <[n1 := ""]> (files σ);
                buffers := delete n1 (buffers σ1) |}).
  assert (Hclose : ∃ r, close h f σ1 = (r, σ2, [Closed n1])).
  { destruct (close_open h f σ1 "" eq_refl) as [[e3 ->]| ->].
    - subst σ1. simpl. by rewrite lookup_insert_eq.
    - by eexists.
    - eexists. do 3 f_equal. subst σ1 f. simpl. by rewrite alter_insert_eq. }
  destruct Hclose as [r Hclose].
  assert (Hx : ∃ e' evs,
            create_mermaid_diagram h script σ
            = (Raised e', σ2, Created n1 :: Closed n1 :: evs)
            ∧ Forall (λ ev, quiet ev = true) evs).
  { unfold create_mermaid_diagram, try_except.
    unfold with_ at 1. rewrite bind_run, Hrun1. unfold exit_after at 1.
    unfold with_ at 1. rewrite bind_run, Hrun2. fold f σ1. rewrite Hclose.
    destruct r as [[]|e3]; simpl.
    - destruct (report_run e2 σ2) as (e' & evs & -> & Hevs). by eauto.
    - destruct (report_run e3 σ2) as (e' & evs & -> & Hevs). by eauto. }
  destruct Hx as (e' & evs & -> & Hevs). simpl.
  split; [done|]. split.
  - clear -Hevs. induction Hevs as [|ev evs Hev _ IH]; [done|].
    by destruct ev.
  - do 2 (split; [done|]). subst σ1. simpl. by rewrite lookup_delete_eq.
Qed.

Lemma create_mermaid_diagram_output_not_created_witness :
  let x := create_mermaid_diagram no_room_for_output
             {| mermaid_script := "graph TD; A-->B" |} disc in
  is_returned x.1.1 = false
  ∧ children x.2 = []
  ∧ files disc !! "/tmp/tmpq81z.mmd" = None
  ∧ files x.1.2 = <["/tmp/tmpq81z.mmd" := ""]> (files disc)
  ∧ buffers x.1.2 !! "/tmp/tmpq81z.mmd" = None.
Proof.
  apply (create_mermaid_diagram_output_not_created no_room_for_output
           {| mermaid_script := "graph TD; A-->B" |} disc
           {| files := <["/tmp/tmpq81z.mmd" := ""]> (files disc);
              buffers := <["/tmp/tmpq81z.mmd" := ""]> (buffers disc) |}
           {| name := "/tmp/tmpq81z.mmd"; delete_flag := false |}
           [Created "/tmp/tmpq81z.mmd"]
           (Exn OSError "[Errno 28] No space left on device" None)).
  - reflexivity.
  - reflexivity.
Defined.

End MermaidServiceFurther.
